(** * datalad [ls]: size conversion, node inspection and the size roll-up

    A shallow embedding of [datalad/interface/ls.py].  Python values are
    modelled as the code uses them: byte counts and the results of
    [float()] as rationals (Python's binary floats are idealised as exact
    rationals), strings as [string], size dictionaries as association lists
    in insertion order, the dictionaries returned by [fs_extract] as
    records living in a store (they are mutated and aliased by
    [fs_traverse]), raised exceptions as a [Raise] outcome.

    The file system, the repository backend and the library functions
    ([float], [humanize.naturalsize], [time.strftime], [time.localtime],
    [exc_str]) are parameters of the model, gathered in [env] and [repo];
    the recursion of the two walkers is bounded by a fuel.  The first part holds the
    definitions, the second part the lemmas and the statements about the
    program. *)

From Stdlib Require Import String Ascii List ZArith QArith Qabs Qround Lia Lqa Bool Arith.
From Stdlib Require Import DecimalString DecimalN DecimalPos.
Import ListNotations.
Local Open Scope string_scope.
Local Open Scope list_scope.

(** ** Python values, exceptions and outcomes *)

(** The exception classes (all subclasses of [Exception]) the code can meet;
    [CommandError] stands for any failure of the repository backend. *)
Inductive exn : Type :=
| OSError
| ValueError
| KeyError
| TypeError
| IndexError
| AttributeError
| CommandError (msg : string).

Inductive result (A : Type) : Type :=
| Ok (a : A)
| Raise (e : exn).
Arguments Ok {A} a.
Arguments Raise {A} e.

Definition rbind {A B} (r : result A) (k : A -> result B) : result B :=
  match r with
  | Ok a => k a
  | Raise e => Raise e
  end.

(** [mapM] over the values of a dictionary, in item order. *)
Fixpoint dict_mapM {V W} (f : V -> result W) (d : list (string * V))
  : result (list (string * W)) :=
  match d with
  | [] => Ok []
  | (k, v) :: d' =>
      rbind (f v) (fun w => rbind (dict_mapM f d') (fun r => Ok ((k, w) :: r)))
  end.

(** What [machinesize] and [humanize.naturalsize] may be handed. *)
Inductive pyval : Type :=
| PyNone
| PyNum (q : Q)
| PyStr (s : string).

(** A [dict] with string keys, in insertion order. *)
Definition dict (V : Type) : Type := list (string * V).

Fixpoint dict_get {V} (k : string) (d : dict V) : option V :=
  match d with
  | [] => None
  | (k', v) :: d' => if String.eqb k k' then Some v else dict_get k d'
  end.

(** [d[k] = v]: replaces the value in place, or appends a new key. *)
Fixpoint dict_set {V} (k : string) (v : V) (d : dict V) : dict V :=
  match d with
  | [] => [(k, v)]
  | (k', v') :: d' =>
      if String.eqb k k' then (k', v) :: d' else (k', v') :: dict_set k v d'
  end.

(** [d.update(u)] *)
Definition dict_update {V} (d u : dict V) : dict V :=
  fold_left (fun acc kv => dict_set (fst kv) (snd kv) acc) u d.

Definition dict_keys {V} (d : dict V) : list string := map fst d.

(** ** Strings *)

(** [s.split(c)] for a one-character separator [c]. *)
Fixpoint split (c : ascii) (s : string) : list string :=
  match s with
  | EmptyString => [EmptyString]
  | String a s' =>
      if Ascii.eqb a c then EmptyString :: split c s'
      else match split c s' with
           | h :: t => String a h :: t
           | [] => [String a EmptyString]
           end
  end.

Fixpoint contains_char (c : ascii) (s : string) : bool :=
  match s with
  | EmptyString => false
  | String a s' => Ascii.eqb a c || contains_char c s'
  end.

Definition space : ascii := " "%char.

(** ** The size converter *)

Definition unit_converter : dict Z :=
  [("Bytes", 0%Z); ("kB", 1%Z); ("MB", 2%Z); ("GB", 3%Z); ("TB", 4%Z); ("PB", 5%Z)].

Section SizeConverter.

(** Python's built-in [float()] on a [str]; [None] is its [ValueError]. *)
Variable py_float : string -> option Q.

(** [machinesize(humansize)]: a value without [.split] (a number) takes
    the [except AttributeError] branch and goes through [float()], which
    is the identity on a number and a [TypeError] on [None]. *)
Definition machinesize (humansize : pyval) : result Q :=
  match humansize with
  | PyStr s =>
      match split space s with
      | [size_str; size_unit] =>
          match py_float size_str with
          | None => Raise ValueError
          | Some x =>
              match dict_get size_unit unit_converter with
              | None => Raise KeyError
              | Some k => Ok (x * inject_Z (1024 ^ k))
              end
          end
      | _ => Raise ValueError
      end
  | PyNum q => Ok q
  | PyNone => Raise TypeError
  end.

(** The shape ["<number> <unit>"]: one space, a left part [float()]
    accepts and a right part that is a key of [unit_converter]. *)
Definition number_unit (s : string) (x : Q) (k : Z) : Prop :=
  exists n u,
    s = (n ++ String space u)%string /\
    contains_char space n = false /\
    py_float n = Some x /\
    dict_get u unit_converter = Some k.

End SizeConverter.

(** ** Decimal literals and the unit ladder of [humanize] *)

Definition show_N (n : N) : string := NilEmpty.string_of_uint (N.to_uint n).

Definition parse_N (s : string) : option N :=
  option_map N.of_uint (NilZero.uint_of_string s).

Definition dot : ascii := "."%char.

(** The plain decimal literals [digits] and [digits.digits], read as
    [float()] reads them.  It is the [float()] the theorems are witnessed
    with; signs, exponents and the other forms [float()] accepts are not
    produced by the size renderer and are left to the parameter
    [py_float]. *)
Definition parse_decimal (s : string) : option Q :=
  match split dot s with
  | [ip] => option_map (fun i => inject_Z (Z.of_N i)) (parse_N ip)
  | [ip; fp] =>
      match parse_N ip, parse_N fp with
      | Some i, Some f =>
          Some (inject_Z (Z.of_N i)
                + inject_Z (Z.of_N f) / inject_Z (10 ^ Z.of_nat (String.length fp)))
      | _, _ => None
      end
  | _ => None
  end.

(** A number of tenths rendered with one decimal, as ['%.1f'] does. *)
Definition show_tenths (t : N) : string :=
  (show_N (t / 10) ++ String dot (show_N (t mod 10)))%string.

Definition ladder : list string := ["Bytes"; "kB"; "MB"; "GB"; "TB"; "PB"].

Definition unit_step (k : nat) : Q := inject_Z (1024 ^ Z.of_nat k).

(** The unit chosen for [b]: the largest rung of the ladder not above [b]. *)
Definition select_unit (b : Q) : nat :=
  if Qle_bool (unit_step 5) b then 5%nat
  else if Qle_bool (unit_step 4) b then 4%nat
  else if Qle_bool (unit_step 3) b then 3%nat
  else if Qle_bool (unit_step 2) b then 2%nat
  else if Qle_bool (unit_step 1) b then 1%nat
  else 0%nat.

(** The number of tenths of the selected unit in [b], to the nearest. *)
Definition tenths (b : Q) : Z :=
  Qfloor (b * inject_Z 10 / unit_step (select_unit b) + (1 # 2)).

(** Modelled from the spec: [humanize.naturalsize] is a third-party
    function that is not part of the sources.  The spec describes it as
    rendering a byte count on the fixed ladder Bytes, kB, MB, GB, TB, PB,
    each step a factor of 1024, with one decimal of precision; the
    decimal is the nearest tenth. *)
Definition humanize (b : Q) : string :=
  (show_tenths (Z.to_N (tenths b))
   ++ String space (nth (select_unit b) ladder ""))%string.

(** The same function with the calling convention of the code: only a
    number is a byte count. *)
Definition humanize_naturalsize (v : pyval) : result string :=
  match v with
  | PyNum q => Ok (humanize q)
  | PyNone | PyStr _ => Raise TypeError
  end.

(** ** Paths ([posixpath]) *)

Definition slash : ascii := "/"%char.

(** [(p[:i], p[i:])] for [i = p.rfind('/') + 1]. *)
Fixpoint path_cut (p : string) : string * string :=
  match p with
  | EmptyString => (EmptyString, EmptyString)
  | String a p' =>
      let (h, t) := path_cut p' in
      if String.eqb h "" then
        if Ascii.eqb a slash then (String a EmptyString, t) else (EmptyString, String a t)
      else (String a h, t)
  end.

(** [s.rstrip('/')] *)
Fixpoint rstrip_slash (s : string) : string :=
  match s with
  | EmptyString => EmptyString
  | String a s' =>
      let r := rstrip_slash s' in
      if String.eqb r "" && Ascii.eqb a slash then EmptyString else String a r
  end.

(** [head and head != '/'*len(head)] decides whether the head is stripped. *)
Definition strip_head (head : string) : string :=
  if String.eqb (rstrip_slash head) "" then head else rstrip_slash head.

(** [os.path.split] *)
Definition path_split (p : string) : string * string :=
  let (head, tail) := path_cut p in (strip_head head, tail).

Definition basename (p : string) : string := snd (path_cut p).

Definition dirname (p : string) : string := fst (path_split p).

Definition isabs (p : string) : bool :=
  match p with
  | String a _ => Ascii.eqb a slash
  | EmptyString => false
  end.

Fixpoint endswith_slash (p : string) : bool :=
  match p with
  | EmptyString => false
  | String a EmptyString => Ascii.eqb a slash
  | String _ p' => endswith_slash p'
  end.

(** [os.path.join(a, b)] *)
Definition opj (a b : string) : string :=
  if isabs b then b
  else if String.eqb a "" || endswith_slash a then (a ++ b)%string
  else (a ++ String slash b)%string.

(** ** The collaborators: file system, libraries, repositories *)

Record stat_result : Type := { st_size : Z; st_mtime : Q }.

(** A repository handle ([GitRepo] or [AnnexRepo]); every query of the
    backend may raise. *)
Record repo : Type := {
  repo_path : string;
(** [isinstance(repo, AnnexRepo)] *)
is_annex : bool;
is_under_annex : string -> result bool;
(** [repo.info(path, batch=True)['size']] *)
info_size : string -> result pyval;
file_has_content : string -> result bool;
(** [repo.count_objects]; [None] is Python's [None] *)
count_objects : result (option (dict pyval));
(** [repo.repo_info()] *)
repo_info : result (option (dict pyval));
get_active_branch : result string;
(** the stripped output of [git describe --tags] *)
git_describe : result string;
(** [next(repo.get_branch_commits(branch)).committed_date] *)
last_commit_date : option string -> result Q;
dirty : result bool
}.

(** An installed [Dataset]. *)
Record dataset : Type := {
  ds_path : string;
  ds_repo : repo;
  get_subdatasets : result (list string)
}.

(** The ambient world: [os] and [os.path] on a fixed snapshot of the file
    system, the Python and third-party library functions the code calls,
    and the [Dataset] constructor. *)
Record env : Type := {
  islink : string -> bool;
  isfile : string -> bool;
  isdir : string -> bool;
  path_exists : string -> bool;
  readlink : string -> result string;
  lstat : string -> result stat_result;
  listdir : string -> result (list string);
(** depends on the working directory of the process *)
abspath : string -> string;
(** [open(p, 'w')] followed by [json.dump] *)
write_json : string -> result unit;
remove : string -> result unit;
(** [float()] on a string *)
py_float : string -> option Q;
(** [str()] of a number *)
str_num : Q -> string;
(** [humanize.naturalsize] *)
naturalsize : pyval -> result string;
(** [time.strftime(fmt, time.localtime(t))] on a time the platform
    accepts, as the times [lstat] reports are *)
strftime : string -> Q -> string;
(** [time.localtime(t)] on a time of any origin, such as the date recorded
    in a commit: an exception ([OverflowError], [OSError]) when the time
    is out of the range of the platform, and otherwise the time [strftime]
    formats *)
localtime : Q -> result Q;
(** [datalad.dochelpers.exc_str] *)
exc_str : exn -> string;
is_interactive : bool;
Dataset : string -> dataset
}.

(** The strings ['file'], ['link'], ['link-broken'], ['annex'], ['git'] and
    ['dir'] of [FsModel.type_]. *)
Inductive node_type : Type :=
| file
| link
| link_broken
| annex
| git
| dir.

(** Truth value of a Python string. *)
Definition truthy (s : string) : bool := negb (String.eqb s "").

Definition zero : pyval := PyNum 0.

Section Names.

Variable E : env.

(** [leaf_name(path)] *)
Definition leaf_name (path : string) : string :=
  let (head, tail) := path_split (abspath E path) in
  if truthy tail then tail else basename head.

(** [ignored(path, only_hidden)]; indexing an empty leaf name is an
    [IndexError]. *)
Definition ignored (path : string) (only_hidden : bool) : result bool :=
  if (isdir E (opj path ".git") || isdir E (opj (opj path ".git") "annex"))
     && negb only_hidden
  then Ok true
  else match leaf_name path with
       | EmptyString => Raise IndexError
       | String c _ =>
           Ok (Ascii.eqb dot c || String.eqb (leaf_name path) "index.html")
       end.

End Names.

Definition dict_lookup (k : string) (d : dict pyval) : result pyval :=
  match dict_get k d with
  | Some v => Ok v
  | None => Raise KeyError
  end.

(** [d[k] if d else None] *)
Definition item_if_any (k : string) (d : option (dict pyval)) : result pyval :=
  match d with
  | None | Some [] => Ok PyNone
  | Some d => dict_lookup k d
  end.

Module GitModel.

Definition git_local_size (r : repo) : result pyval :=
  rbind (count_objects r) (item_if_any "size").

(** [GitModel.branch]: a failing query is swallowed. *)
Definition branch (r : option repo) : option string :=
  match r with
  | Some r => match get_active_branch r with
              | Ok b => Some b
              | Raise _ => None
              end
  | None => None
  end.

Definition describe (r : option repo) : option string :=
  match r with
  | Some r => match git_describe r with
              | Ok d => Some d
              | Raise _ => None
              end
  | None => None
  end.

(** [GitModel.date]: date of the last commit. *)
Definition date (r : option repo) : option Q :=
  match r with
  | Some r' => match last_commit_date r' (branch r) with
               | Ok d => Some d
               | Raise _ => None
               end
  | None => None
  end.

(** [GitModel.type] *)
Definition type (r : option repo) : string :=
  match r with
  | Some r => if is_annex r then "annex" else "git"
  | None => "git"
  end.

End GitModel.

Module AnnexModel.

Definition annex_worktree_size (r : repo) : result pyval :=
  rbind (repo_info r) (item_if_any "size of annexed files in working tree").

Definition annex_local_size (r : repo) : result pyval :=
  rbind (repo_info r) (item_if_any "local annex size").

(** [AnnexModel.clean] *)
Definition clean (r : repo) : result bool :=
  rbind (dirty r) (fun d => Ok (negb d)).

End AnnexModel.

Module FsModel.
Section WithEnv.

Variable E : env.

(** [FsModel.symlink]: the link's target when it exists. *)
Definition symlink (path : string) : result (option string) :=
  if islink E path then
    rbind (readlink E path) (fun target_path =>
      let target_path :=
        if isabs target_path then target_path
        else opj (dirname path) target_path in
      Ok (if path_exists E target_path then Some target_path else None))
  else Ok None.

(** [FsModel.type_]; [None] is the fall-through of the chain. *)
Definition type_ (path : string) : result (option node_type) :=
  if islink E path then
    rbind (symlink path) (fun s =>
      Ok (Some match s with
               | Some t => if truthy t then link else link_broken
               | None => link_broken
               end))
  else if isfile E path then Ok (Some file)
  else if path_exists E (opj (opj path ".git") "annex") then Ok (Some annex)
  else if path_exists E (opj path ".git") then Ok (Some git)
  else if isdir E path then Ok (Some dir)
  else Ok None.

(** [type_ in ['file', 'link', 'link-broken']] *)
Definition file_like (t : option node_type) : bool :=
  match t with
  | Some file | Some link | Some link_broken => true
  | _ => false
  end.

Definition is_link_broken (t : option node_type) : bool :=
  match t with
  | Some link_broken => true
  | _ => false
  end.

Definition initial_sizes : dict pyval :=
  [("total", zero); ("ondisk", zero); ("git", zero); ("annex", zero);
   ("annex_worktree", zero)].

(** [self.symlink or self._path] *)
Definition symlink_or_path (path : string) : result string :=
  rbind (symlink path) (fun s =>
    Ok match s with
       | Some t => if truthy t then t else path
       | None => path
       end).

(** The [(size, ondisk_size)] pair of a file-like node. *)
Definition file_sizes (path : string) (r : repo) (t : option node_type)
  : result (pyval * pyval) :=
  rbind (if is_annex r then is_under_annex r path else Ok false)
    (fun annexed =>
       if annexed then
         rbind (info_size r path) (fun size =>
         rbind (file_has_content r path) (fun has =>
           Ok (size, if has then size else zero)))
       else if is_link_broken t then Ok (zero, zero)
       else
         rbind (symlink_or_path path) (fun p =>
         rbind (lstat E p) (fun st =>
           let size := PyNum (inject_Z (st_size st)) in
           Ok (size, size)))).

(** [FsModel.size] *)
Definition size (path : string) (r : repo) : result (dict pyval) :=
  rbind (type_ path) (fun t =>
  rbind (if file_like t then
           rbind (file_sizes path r t) (fun so =>
             Ok (dict_update initial_sizes
                   [("total", fst so); ("ondisk", snd so)]))
         else Ok initial_sizes) (fun sizes =>
  if String.eqb (repo_path r) path then
    rbind (GitModel.git_local_size r) (fun g =>
    rbind (AnnexModel.annex_local_size r) (fun a =>
    rbind (AnnexModel.annex_worktree_size r) (fun w =>
      Ok (dict_update sizes
            [("git", g); ("annex", a); ("annex_worktree", w)]))))
  else Ok sizes)).

(** [FsModel.date]: the test [self.type_ is not ['git', 'annex']] compares
    identities with a fresh list and is always true. *)
Definition date (path : string) : result Q :=
  rbind (type_ path) (fun _ =>
  rbind (lstat E path) (fun st => Ok (st_mtime st))).

End WithEnv.
End FsModel.

(** ** The store of node dictionaries *)

Definition loc : Type := nat.

(** The dictionary [fs_extract] returns; ['nodes'] is added by
    [fs_traverse] and holds references. *)
Module Node.

Record t : Type := mk {
  name : string;
  path : string;
  repo : string;
  type : option node_type;
  size : dict string;
  date : string;
  nodes : option (list loc)
}.

Definition set_name (v : string) (n : t) : t :=
  mk v (path n) (repo n) (type n) (size n) (date n) (nodes n).

Definition set_size (v : dict string) (n : t) : t :=
  mk (name n) (path n) (repo n) (type n) v (date n) (nodes n).

Definition set_nodes (v : list loc) (n : t) : t :=
  mk (name n) (path n) (repo n) (type n) (size n) (date n) (Some v).

Definition empty : t := mk "" "" "" None [] "" None.

End Node.

Definition heap : Type := list Node.t.

(** What the traversal does to the outside: a sidecar written from the
    document at [doc] as the store then stands, a document printed, a
    sidecar removed, a line logged. *)
Inductive event : Type :=
| Dumped (file : string) (doc : loc) (h : heap)
| Printed (doc : loc) (h : heap)
| Removed (file : string)
| Logged (msg : string).

Record state : Type := { store : heap; trace : list event }.

Inductive outcome (A : Type) : Type :=
| Returns (a : A) (s : state)
| Raises (e : exn)
| OutOfFuel.
Arguments Returns {A} a s.
Arguments Raises {A} e.
Arguments OutOfFuel {A}.

Definition M (A : Type) : Type := state -> outcome A.

Definition ret {A} (a : A) : M A := fun s => Returns a s.

Definition bind {A B} (m : M A) (k : A -> M B) : M B :=
  fun s => match m s with
           | Returns a s' => k a s'
           | Raises e => Raises e
           | OutOfFuel => OutOfFuel
           end.

Notation "x <- m ;; k" := (bind m (fun x => k))
  (at level 61, m at next level, right associativity).
Notation "m ;; k" := (bind m (fun _ => k))
  (at level 61, right associativity).

Definition lift {A} (r : result A) : M A :=
  fun s => match r with
           | Ok a => Returns a s
           | Raise e => Raises e
           end.

Definition out_of_fuel {A} : M A := fun _ => OutOfFuel.

(** A new dictionary. *)
Definition alloc (n : Node.t) : M loc :=
  fun s => Returns (List.length (store s))
             {| store := store s ++ [n]; trace := trace s |}.

(** References held by the program always point into the store. *)
Definition read (h : heap) (l : loc) : Node.t := nth l h Node.empty.

Fixpoint update (l : loc) (f : Node.t -> Node.t) (h : heap) : heap :=
  match h, l with
  | [], _ => []
  | n :: h', O => f n :: h'
  | n :: h', S l' => n :: update l' f h'
  end.

Definition load (l : loc) : M Node.t :=
  fun s => Returns (read (store s) l) s.

Definition modify (l : loc) (f : Node.t -> Node.t) : M unit :=
  fun s => Returns tt {| store := update l f (store s); trace := trace s |}.

Definition emit (ev : heap -> event) : M unit :=
  fun s => Returns tt {| store := store s; trace := trace s ++ [ev (store s)] |}.

(** [for x in xs: acc = body(acc, x)] *)
Fixpoint for_each {A B} (xs : list A) (acc : B) (body : B -> A -> M B) : M B :=
  match xs with
  | [] => ret acc
  | x :: xs' => acc' <- body acc x ;; for_each xs' acc' body
  end.

Fixpoint foldM {A B} (f : B -> A -> result B) (xs : list A) (acc : B) : result B :=
  match xs with
  | [] => Ok acc
  | x :: xs' => rbind (f acc x) (foldM f xs')
  end.

(** [l.insert(i, x)] *)
Definition list_insert {A} (i : nat) (x : A) (l : list A) : list A :=
  firstn i l ++ x :: skipn i l.

Inductive json_mode : Type :=
| json_file
| json_display
| json_delete.

(** ** The tree walker and the dataset walker *)

Section Walkers.

Variable E : env.

(** The dictionary built by [fs_extract]. *)
Definition fs_extract_dict (nodepath : string) (r : repo) : result Node.t :=
  rbind (FsModel.size E nodepath r) (fun sizes =>
  rbind (dict_mapM (naturalsize E) sizes) (fun pretty_size =>
  rbind (FsModel.date E nodepath) (fun d =>
  let pretty_date := strftime E "%Y-%m-%d %H:%M:%S" d in
  let name :=
    if truthy (leaf_name E nodepath) then leaf_name E nodepath
    else leaf_name E (repo_path r) in
  rbind (FsModel.type_ E nodepath) (fun t =>
    Ok (Node.mk name nodepath (repo_path r) t pretty_size pretty_date None))))).

(** [fs_extract(nodepath, repo)] *)
Definition fs_extract (nodepath : string) (r : repo) : M loc :=
  n <- lift (fs_extract_dict nodepath r) ;;
  alloc n.

(** [fs_render(path, fs_metadata, json)] *)
Definition fs_render (path : string) (fs_metadata : loc) (json : option json_mode)
  : M unit :=
  match json with
  | Some json_file =>
      lift (write_json E (opj path ".dir.json")) ;;
      emit (Dumped (opj path ".dir.json") fs_metadata)
  | Some json_delete =>
      if path_exists E (opj path ".dir.json") then
        lift (remove E (opj path ".dir.json")) ;;
        emit (fun _ => Removed (opj path ".dir.json"))
      else ret tt
  | Some json_display => emit (Printed fs_metadata)
  | None => ret tt
  end.

(** [children_size[size_type] = children_size.get(size_type, 0)
    + machinesize(child_size)] *)
Definition add_size (children_size : dict Q) (item : string * string)
  : result (dict Q) :=
  let (size_type, child_size) := item in
  rbind (machinesize (py_float E) (PyStr child_size)) (fun m =>
    Ok (dict_set size_type
          (match dict_get size_type children_size with
           | Some v => v
           | None => 0
           end + m)
          children_size)).

(** The two summing loops of [fs_traverse] and [_ds_traverse]. *)
Definition sum_sizes (sizes : list (dict string)) : result (dict Q) :=
  foldM (fun children_size d => foldM add_size d children_size) sizes [].

(** [{size_type: humanize.naturalsize(size) for ...}] *)
Definition humanize_sizes (children_size : dict Q) : result (dict string) :=
  dict_mapM (fun v => naturalsize E (PyNum v)) children_size.

Definition rollup (sizes : list (dict string)) : result (dict string) :=
  rbind (sum_sizes sizes) humanize_sizes.

Definition sizes_of (h : heap) (ls : list loc) : list (dict string) :=
  map (fun l => Node.size (read h l)) ls.

(** The body of the loop over [listdir(path)]; [traverse nodepath parent]
    is the recursive call. *)
Definition visit (traverse : string -> loc -> M loc) (path : string) (r : repo)
  (recursive : bool) (children : list loc) (node : string) : M (list loc) :=
  let nodepath := opj path node in
  ign <- lift (ignored E nodepath true) ;;
  children <- (if negb ign
               then c <- fs_extract nodepath r ;; ret (children ++ [c])
               else ret children) ;;
  descend <- (if recursive
              then ign' <- lift (ignored E nodepath false) ;; ret (negb ign')
              else ret false) ;;
  if (descend : bool) then
    subdir <- traverse nodepath (nth 0 children O) ;;
    sub <- load subdir ;;
    modify (last children O) (Node.set_size (Node.size sub)) ;;
    ret children
  else ret children.

Definition fs_traverse_body (traverse : string -> loc -> M loc)
  (path : string) (r : repo) (parent : option loc)
  (render recursive : bool) (json : option json_mode) : M loc :=
  fs <- fs_extract path r ;;
  if isdir E path then
    self <- fs_extract path r ;;
    names <- lift (listdir E path) ;;
    children <- for_each names [self] (visit traverse path r recursive) ;;
    new_size <- (fun s => lift (rollup (sizes_of (store s) (tl children))) s) ;;
    modify fs (Node.set_size new_size) ;;
    modify (nth 0 children O) (Node.set_size new_size) ;;
    modify (nth 0 children O) (Node.set_name ".") ;;
    children <- match parent with
                | Some p =>
                    modify p (Node.set_name "..") ;;
                    ret (list_insert 1 p children)
                | None => ret children
                end ;;
    modify fs (Node.set_nodes children) ;;
    (if render
     then fs_render path fs json ;;
          emit (fun _ => Logged ("Directory: " ++ path)%string)
     else ret tt) ;;
    ret fs
  else ret fs.

(** [fs_traverse(path, repo, parent, render, recursive, json)]; the
    recursive call passes [children[0]] as parent and leaves [render] at
    its default. *)
Fixpoint fs_traverse (fuel : nat) (path : string) (r : repo) (parent : option loc)
  (render recursive : bool) (json : option json_mode) {struct fuel} : M loc :=
  fs_traverse_body
    (fun nodepath p =>
       match fuel with
       | O => out_of_fuel
       | S fuel' => fs_traverse fuel' nodepath r (Some p) true recursive json
       end)
    path r parent render recursive json.

Definition ds_traverse_body (traverse : dataset -> dataset -> M loc) (fuel : nat)
  (rootds : dataset) (parent : option dataset) (json : option json_mode)
  (recursive all : bool) : M loc :=
  fsparent <- match parent with
              | Some p => l <- fs_extract (ds_path p) (ds_repo p) ;; ret (Some l)
              | None => ret None
              end ;;
  fs <- fs_traverse fuel (ds_path rootds) (ds_repo rootds) fsparent
          false recursive json ;;
  own <- load fs ;;
  size_list <-
    (if all then
       subs <- lift (get_subdatasets rootds) ;;
       for_each subs [Node.size own] (fun size_list subds_path =>
         let subds := Dataset E (opj (ds_path rootds) subds_path) in
         subfs <- traverse subds rootds ;;
         sub <- load subfs ;;
         ret (size_list ++ [Node.size sub]))
     else ret [Node.size own]) ;;
  new_size <- lift (rollup size_list) ;;
  modify fs (Node.set_size new_size) ;;
  emit (fun _ => Logged ("Dataset: " ++ ds_path rootds)%string) ;;
  fs_render (ds_path rootds) fs json ;;
  ret fs.

(** [_ds_traverse(rootds, parent, json, recursive, all)]; the recursive
    call does not pass [all] on. *)
Fixpoint _ds_traverse (fuel : nat) (rootds : dataset) (parent : option dataset)
  (json : option json_mode) (recursive all : bool) {struct fuel} : M loc :=
  ds_traverse_body
    (fun subds root =>
       match fuel with
       | O => out_of_fuel
       | S fuel' => _ds_traverse fuel' subds (Some root) json recursive false
       end)
    fuel rootds parent json recursive all.

End Walkers.

(** ** Dataset listing *)

(** A value interpolated into a format string. *)
Inductive fval : Type :=
| FPy (v : pyval)
| FBool (b : bool).

(** The attributes and keyword the format strings of [_ls_dataset] name. *)
Inductive field : Type :=
| ds_path_
| ds_type
| ds_branch
| ds_describe
| ds_date
| ds_clean
| ds_annex_local_size
| ds_annex_worktree_size
| msg_.

(** The conversion specifiers [LsFormatter.convert_field] adds. *)
Inductive conversion : Type :=
| conv_D
| conv_S
| conv_X
| conv_N
| conv_B
| conv_R.

(** A parsed format string: literal text and replacement fields
    [{field!conversion:<width}]. *)
Inductive piece : Type :=
| Lit (text : string)
| Repl (f : field) (conv : option conversion) (width : option nat).

(** An [AnnexModel] as [_ls_dataset] holds it: a repository (or [None]) and
    the adjusted path. *)
Record ds_model : Type := { model_repo : option repo; model_path : string }.

Module LsFormatter.

(** The class attributes, fixed when the module is imported. *)
Record t : Type := mk {
  BLUE : string;
  RED : string;
  GREEN : string;
  RESET : string;
  OK : string;
  NOK : string;
  NONE : string
}.

End LsFormatter.

Fixpoint spaces (n : nat) : string :=
  match n with
  | O => EmptyString
  | S n' => String space (spaces n')
  end.

(** [s.ljust(w)] *)
Definition ljust (w : nat) (s : string) : string :=
  (s ++ spaces (w - String.length s)%nat)%string.

Section Listing.

Variable E : env.
Variable F : LsFormatter.t.

(** [str(value)] *)
Definition py_str (value : fval) : string :=
  match value with
  | FPy PyNone => "None"
  | FPy (PyStr s) => s
  | FPy (PyNum q) => str_num E q
  | FBool true => "True"
  | FBool false => "False"
  end.

Definition py_bool (value : fval) : bool :=
  match value with
  | FPy PyNone => false
  | FPy (PyStr s) => truthy s
  | FPy (PyNum q) => negb (Qeq_bool q 0)
  | FBool b => b
  end.

Definition of_option {A} (inj : A -> pyval) (o : option A) : fval :=
  match o with
  | Some a => FPy (inj a)
  | None => FPy PyNone
  end.

(** [getattr(ds, name)], or the keyword [msg]. *)
Definition get_field (ds : ds_model) (msg : option string) (f : field)
  : result fval :=
  match f with
  | ds_path_ => Ok (FPy (PyStr (model_path ds)))
  | ds_type => Ok (FPy (PyStr (GitModel.type (model_repo ds))))
  | ds_branch => Ok (of_option PyStr (GitModel.branch (model_repo ds)))
  | ds_describe => Ok (of_option PyStr (GitModel.describe (model_repo ds)))
  | ds_date => Ok (of_option PyNum (GitModel.date (model_repo ds)))
  | ds_clean =>
      match model_repo ds with
      | Some r => rbind (AnnexModel.clean r) (fun b => Ok (FBool b))
      | None => Raise AttributeError
      end
  | ds_annex_local_size =>
      match model_repo ds with
      | Some r => rbind (AnnexModel.annex_local_size r) (fun v => Ok (FPy v))
      | None => Raise AttributeError
      end
  | ds_annex_worktree_size =>
      match model_repo ds with
      | Some r => rbind (AnnexModel.annex_worktree_size r) (fun v => Ok (FPy v))
      | None => Raise AttributeError
      end
  | msg_ =>
      match msg with
      | Some m => Ok (FPy (PyStr m))
      | None => Raise KeyError
      end
  end.

Definition colored (color : string) (text : string) : fval :=
  FPy (PyStr (color ++ text ++ LsFormatter.RESET F)%string).

(** [LsFormatter.convert_field(value, conversion)] *)
Definition convert_field (value : fval) (conv : option conversion) : result fval :=
  match conv with
  | Some conv_D =>
      match value with
      | FPy PyNone => Ok (FPy (PyStr "-"))
      | FPy (PyNum q) =>
          rbind (localtime E q) (fun t =>
            Ok (FPy (PyStr (strftime E "%Y-%m-%d/%H:%M:%S" t))))
      | FBool b =>
          rbind (localtime E (if b then 1 else 0)) (fun t =>
            Ok (FPy (PyStr (strftime E "%Y-%m-%d/%H:%M:%S" t))))
      | FPy (PyStr _) => Raise TypeError
      end
  | Some conv_S =>
      match value with
      | FPy PyNone => Ok (FPy (PyStr "-"))
      | FPy v => rbind (naturalsize E v) (fun s => Ok (FPy (PyStr s)))
      | FBool b =>
          rbind (naturalsize E (PyNum (if b then 1 else 0)))
                (fun s => Ok (FPy (PyStr s)))
      end
  | Some conv_X =>
      Ok (if py_bool value
          then colored (LsFormatter.GREEN F) (LsFormatter.OK F)
          else colored (LsFormatter.RED F) (LsFormatter.NOK F))
  | Some conv_N =>
      match value with
      | FPy PyNone => Ok (colored (LsFormatter.RED F) (LsFormatter.NONE F))
      | _ => Ok value
      end
  | Some conv_B => Ok (colored (LsFormatter.BLUE F) (py_str value))
  | Some conv_R => Ok (colored (LsFormatter.RED F) (py_str value))
  | None => Ok value
  end.

(** [format(value, spec)] for the empty spec and for [<width]. *)
Definition format_field (value : fval) (width : option nat) : result string :=
  match width with
  | None => Ok (py_str value)
  | Some w =>
      match value with
      | FPy PyNone => Raise TypeError
      | FPy (PyStr s) => Ok (ljust w s)
      | FPy (PyNum q) => Ok (ljust w (str_num E q))
      | FBool b => Ok (ljust w (if b then "1" else "0"))
      end
  end.

(** [formatter.format(format_string, ds=ds, msg=msg)] *)
Fixpoint format (format_string : list piece) (ds : ds_model) (msg : option string)
  : result string :=
  match format_string with
  | [] => Ok EmptyString
  | Lit text :: rest =>
      rbind (format rest ds msg) (fun out => Ok (text ++ out)%string)
  | Repl f conv width :: rest =>
      rbind (get_field ds msg f) (fun obj =>
      rbind (convert_field obj conv) (fun obj =>
      rbind (format_field obj width) (fun text =>
      rbind (format rest ds msg) (fun out => Ok (text ++ out)%string))))
  end.

(** [format_ds_model(formatter, ds_model, format_str, format_exc)] *)
Definition format_ds_model (ds : ds_model) (format_str format_exc : list piece)
  : result string :=
  let attempt :=
    if negb (path_exists E (model_path ds))
       || match model_repo ds with Some _ => false | None => true end
    then format format_exc ds (Some "not installed")
    else format format_str ds None in
  match attempt with
  | Ok ds_formatted => Ok ds_formatted
  | Raise exc => format format_exc ds (Some (exc_str E exc))
  end.

Definition path_fmt (dsms : list ds_model) : list piece :=
  let maxpath := fold_right Nat.max O
                   (map (fun m => String.length (model_path m)) dsms) in
  [Repl ds_path_ (Some conv_B)
     (Some (maxpath + (if is_interactive E then 11 else 0))%nat)].

Definition full_fmt (dsms : list ds_model) (fast all : bool) : list piece :=
  path_fmt dsms
  ++ [Lit "  ["; Repl ds_type None None; Lit "]"]
  ++ [Lit "  "; Repl ds_branch (Some conv_N) None;
      Lit "  "; Repl ds_describe (Some conv_N) None;
      Lit " "; Repl ds_date (Some conv_D) None]
  ++ (if negb fast || all then [Lit "  "; Repl ds_clean (Some conv_X) None] else [])
  ++ (if all
      then [Lit "  "; Repl ds_annex_local_size (Some conv_S) None;
            Lit "/"; Repl ds_annex_worktree_size (Some conv_S) None]
      else []).

Definition format_exc (dsms : list ds_model) : list piece :=
  path_fmt dsms ++ [Lit "  "; Repl msg_ (Some conv_R) None].

(** The printing loop of [_ls_dataset] over the sorted models [dsms] it
    has built from its location; the result is the lines printed. *)
Fixpoint print_models (all_dsms dsms : list ds_model) (fast all : bool)
  : result (list string) :=
  match dsms with
  | [] => Ok []
  | dsm :: rest =>
      rbind (format_ds_model dsm (full_fmt all_dsms fast all) (format_exc all_dsms))
        (fun ds_str =>
           rbind (print_models all_dsms rest fast all)
             (fun lines => Ok (ds_str :: lines)))
  end.

(** [_ls_dataset], from the list of models on; [max()] of an empty
    sequence is a [ValueError]. *)
Definition _ls_dataset (dsms : list ds_model) (fast all : bool)
  : result (list string) :=
  match dsms with
  | [] => Raise ValueError
  | _ => print_models dsms dsms fast all
  end.

End Listing.

(** ** The head of [_ls_dataset]: the paths of the models *)

(** [s[n:]] *)
Fixpoint drop (n : nat) (s : string) : string :=
  match n, s with
  | O, _ => s
  | S n', String _ s' => drop n' s'
  | S _, EmptyString => EmptyString
  end.

(** [topdir = '' if isabs(loc) else abspath(curdir)] *)
Definition topdir (E : env) (loc : string) : string :=
  if isabs loc then "" else abspath E ".".

(** [path = ds_model.path[len(topdir) + 1 if topdir else 0:]], then
    ['.'] for an empty path. *)
Definition adjusted_path (top path : string) : string :=
  let path := drop (if truthy top then String.length top + 1 else 0)%nat path in
  if truthy path then path else ".".

(** The loop that adjusts the path strings of the models; the path of a
    fresh model is [repo.path], an [AttributeError] when the dataset has no
    repository. *)
Fixpoint adjust_paths (top : string) (dss : list (option repo))
  : result (list ds_model) :=
  match dss with
  | [] => Ok []
  | None :: _ => Raise AttributeError
  | Some r :: rest =>
      rbind (adjust_paths top rest) (fun dsms =>
        Ok ({| model_repo := Some r;
               model_path := adjusted_path top (repo_path r) |} :: dsms))
  end.

(** ** The head of [_ls_s3]: bucket name and prefix of the location *)

(** [s.split(c, 1)] *)
Fixpoint split_once (c : ascii) (s : string) : list string :=
  match s with
  | EmptyString => [EmptyString]
  | String a s' =>
      if Ascii.eqb a c then [EmptyString; s']
      else match split_once c s' with
           | h :: t => String a h :: t
           | [] => [String a EmptyString]
           end
  end.

(** [s[:s.index(c)]] *)
Fixpoint before (c : ascii) (s : string) : string :=
  match s with
  | EmptyString => EmptyString
  | String a s' => if Ascii.eqb a c then EmptyString else String a (before c s')
  end.

Definition question_mark : ascii := "?"%char.

(** The string handling that opens [_ls_s3]: the bucket name, the prefix
    with its URL options stripped, and the messages printed up to the
    connection.  The imports between the two steps are taken to succeed. *)
Definition _ls_s3_location (loc : string) : result (string * string * list string) :=
  if String.prefix "s3://" loc then
    match split_once slash (drop 5 loc) with
    | [bucket_name; prefix] =>
        let stripped := contains_char question_mark prefix in
        let prefix := if stripped then before question_mark prefix else prefix in
        Ok (bucket_name, prefix,
            (if stripped
             then ["We do not care about URL options ATM, they get stripped"]
             else [])
            ++ [("Connecting to bucket: " ++ bucket_name)%string])
    | _ => Raise ValueError
    end
  else Raise ValueError.

(** ** Concrete worlds

    Small file systems, repositories and library instances on which the
    definitions are run. *)

Inductive fs_entry : Type :=
| RegularFile (bytes : Z)
| Directory (names : list string)
| SymbolicLink (target : string).

Definition fs_table : Type := list (string * fs_entry).

Definition entry_at (tbl : fs_table) (p : string) : option fs_entry := dict_get p tbl.

(** What the path leads to once a symbolic link (one level of them, enough
    for the tables below) is followed. *)
Definition resolved (tbl : fs_table) (p : string) : option fs_entry :=
  match entry_at tbl p with
  | Some (SymbolicLink target) =>
      match entry_at tbl (if isabs target then target else opj (dirname p) target) with
      | Some (SymbolicLink _) => None
      | e => e
      end
  | e => e
  end.

(** A plain git repository rooted at [root]. *)
Definition git_repo (root : string) : repo := {|
  repo_path := root; is_annex := false;
  is_under_annex _ := Ok false;
  info_size _ := Raise (CommandError "not annexed");
  file_has_content _ := Ok false;
  count_objects := Ok (Some [("size", zero)]);
  repo_info := Ok (Some [("local annex size", zero);
                         ("size of annexed files in working tree", zero)]);
  get_active_branch := Ok "master";
  git_describe := Raise (CommandError "no tags");
  last_commit_date _ := Ok 0;
  dirty := Ok false
|}.

(** The world of a table: absolute, normalised paths, the renderer
    modelled from the spec, [parse_decimal] as [float()], every dataset a
    plain git repository without sub-datasets. *)
Definition table_env (tbl : fs_table) : env := {|
  islink p := match entry_at tbl p with Some (SymbolicLink _) => true | _ => false end;
  isfile p := match resolved tbl p with Some (RegularFile _) => true | _ => false end;
  isdir p := match resolved tbl p with Some (Directory _) => true | _ => false end;
  path_exists p := match resolved tbl p with Some _ => true | None => false end;
  readlink p := match entry_at tbl p with
                | Some (SymbolicLink target) => Ok target
                | _ => Raise OSError
                end;
  lstat p := match entry_at tbl p with
             | Some (RegularFile bytes) => Ok {| st_size := bytes; st_mtime := 0 |}
             | Some (Directory _) => Ok {| st_size := 4096; st_mtime := 0 |}
             | Some (SymbolicLink target) =>
                 Ok {| st_size := Z.of_nat (String.length target); st_mtime := 0 |}
             | None => Raise OSError
             end;
  listdir p := match resolved tbl p with
               | Some (Directory names) => Ok names
               | _ => Raise OSError
               end;
  abspath p := p;
  write_json _ := Ok tt;
  remove _ := Ok tt;
  py_float := parse_decimal;
  str_num q := humanize q;
  naturalsize := humanize_naturalsize;
  strftime _ _ := "1970-01-01 00:00:00";
  localtime q := if Qle_bool (Qabs q) (inject_Z (2 ^ 55)) then Ok q
                 else Raise OSError;
  exc_str e := match e with
               | OSError => "OSError"
               | ValueError => "ValueError"
               | KeyError => "KeyError"
               | TypeError => "TypeError"
               | IndexError => "IndexError"
               | AttributeError => "AttributeError"
               | CommandError msg => msg
               end;
  is_interactive := false;
  Dataset p := {| ds_path := p; ds_repo := git_repo p;
                  get_subdatasets := Ok [] |}
|}.

Definition empty_state : state := {| store := []; trace := [] |}.

(** The scenario of the spec: [/d] holds [a] (100 bytes), [b] (924 bytes)
    and the hidden file [.c]. *)
Definition scenario_fs : fs_table :=
  [("/d", Directory ["a"; "b"; ".c"]);
   ("/d/a", RegularFile 100);
   ("/d/b", RegularFile 924);
   ("/d/.c", RegularFile 7)].

(** ** The vocabulary of the statements *)

Local Open Scope nat_scope.

(** The parent, when there is one, as a list of entries. *)
Definition opt_list {A} (o : option A) : list A :=
  match o with
  | Some a => [a]
  | None => []
  end.

(** [parent['name'] = '..'] *)
Definition rename_parent (parent : option loc) (h : heap) : heap :=
  match parent with
  | Some p => update p (Node.set_name "..") h
  | None => h
  end.

(** [b] is [a] but for its name. *)
Definition renamed (a b : Node.t) : Prop := exists nm, b = Node.set_name nm a.

(** Every record of [h] is still there in [h'], unchanged, except that the
    record at [parent] may carry another name. *)
Definition frame (parent : option loc) (h h' : heap) : Prop :=
  (List.length h <= List.length h')%nat /\
  forall x, (x < List.length h)%nat ->
            read h' x = read h x
            \/ (parent = Some x /\ renamed (read h x) (read h' x)).

(** The result of a call is a new record, and the call respects [frame]. *)
Definition fresh_result (parent : option loc) (s : state) (l : loc) (s' : state) : Prop :=
  (List.length (store s) <= l < List.length (store s'))%nat
  /\ frame parent (store s) (store s').


(** The five size categories, all at [z]. *)
Definition five (z : string) : dict string :=
  [("total", z); ("ondisk", z); ("git", z); ("annex", z); ("annex_worktree", z)].

(** The inline error marker: the padded, coloured path, then the message in
    red. *)
Definition error_marker (E : env) (F : LsFormatter.t) (dsms : list ds_model)
  (ds : ds_model) (msg : string) : string :=
  let width := fold_right Nat.max O (map (fun m => String.length (model_path m)) dsms)
               + (if is_interactive E then 11 else 0) in
  (ljust width (LsFormatter.BLUE F ++ model_path ds ++ LsFormatter.RESET F)
   ++ "  " ++ (LsFormatter.RED F ++ msg ++ LsFormatter.RESET F) ++ "")%string.

Section Vocabulary.

Variable E : env.

(** A child entry of the directory [path]: the record of a listed name
    that passes the filter, as [fs_extract] built it, with its size
    replaced when the walker descended into it. *)
Definition child_of (path : string) (r : repo) (recursive : bool)
  (names : list string) (h : heap) (c : loc) : Prop :=
  exists n rec0,
    In n names
    /\ ignored E (opj path n) true = Ok false
    /\ fs_extract_dict E (opj path n) r = Ok rec0
    /\ (read h c = rec0
        \/ (recursive = true /\ exists sz, read h c = Node.set_size sz rec0)).

(** The state of the loop over the listing. *)
Definition loop_inv (h0 : heap) (n0 : Node.t) (path : string) (r : repo)
  (recursive : bool) (names : list string)
  (children : list loc) (s : state) : Prop :=
  let self := S (List.length h0) in
  exists cs,
    children = self :: cs
    /\ self < List.length (store s)
    /\ (forall x, x < List.length h0 -> read (store s) x = read h0 x)
    /\ read (store s) (List.length h0) = n0
    /\ renamed n0 (read (store s) self)
    /\ NoDup cs
    /\ Forall (fun c => self < c < List.length (store s)
                        /\ child_of path r recursive names (store s) c) cs.

(** The store a traversal of a directory leaves behind, in terms of the
    store at the end of the loop over the listing. *)
Definition dir_store (path : string) (r : repo) (parent : option loc)
  (recursive : bool) (s : state) (fs : loc) (s' : state) : Prop :=
  exists names n0 cs s3 new_size,
    fs = List.length (store s)
    /\ fs_extract_dict E path r = Ok n0
    /\ listdir E path = Ok names
    /\ loop_inv (store s) n0 path r recursive names (S fs :: cs) s3
    /\ rollup E (sizes_of (store s3) cs) = Ok new_size
    /\ store s' =
         update fs (Node.set_nodes (S fs :: opt_list parent ++ cs))
           (rename_parent parent
              (update (S fs) (Node.set_name ".")
                 (update (S fs) (Node.set_size new_size)
                    (update fs (Node.set_size new_size) (store s3))))).

(** What the record returned for a directory, and the store, look like
    after [fs_traverse]. *)
Definition dir_result (path : string) (r : repo) (parent : option loc)
  (recursive : bool) (s : state) (fs : loc) (s' : state) : Prop :=
  exists names n0 cs new_size,
    fs = List.length (store s)
    /\ fs_extract_dict E path r = Ok n0
    /\ listdir E path = Ok names
    /\ read (store s') fs
       = Node.set_nodes (S fs :: opt_list parent ++ cs) (Node.set_size new_size n0)
    /\ read (store s') (S fs) = Node.set_name "." (Node.set_size new_size n0)
    /\ rollup E (sizes_of (store s') cs) = Ok new_size
    /\ NoDup cs
    /\ Forall (fun c => S fs < c < List.length (store s')
                        /\ child_of path r recursive names (store s') c) cs
    /\ (forall p, parent = Some p ->
                  read (store s') p = Node.set_name ".." (read (store s) p))
    /\ (forall x, x < List.length (store s) -> parent <> Some x ->
                  read (store s') x = read (store s) x).

(** The byte count a size string stands for ([0] where [machinesize]
    raises, which a roll-up that returns never meets). *)
Definition bytes_of (v : string) : Q :=
  match machinesize (py_float E) (PyStr v) with
  | Ok q => q
  | Raise _ => 0%Q
  end.

(** What one size dictionary holds in category [t]; a missing category
    counts as zero. *)
Fixpoint category_of (t : string) (d : dict string) : Q :=
  match d with
  | [] => 0%Q
  | (k, v) :: d' =>
      ((if String.eqb t k then bytes_of v else 0) + category_of t d')%Q
  end.

(** The category-wise sum over the children. *)
Fixpoint category_total (t : string) (sizes : list (dict string)) : Q :=
  match sizes with
  | [] => 0%Q
  | d :: rest => (category_of t d + category_total t rest)%Q
  end.

(** [children_size.get(t, 0)] *)
Definition get0 (t : string) (acc : dict Q) : Q :=
  match dict_get t acc with
  | Some v => v
  | None => 0%Q
  end.

(** Every value of the dictionary is a size [machinesize] reads. *)
Definition readable (d : dict string) : Prop :=
  Forall (fun kv => exists q, machinesize (py_float E) (PyStr (snd kv)) = Ok q) d.


End Vocabulary.


(** Two models that agree on what the quick format shows: path, kind of
    repository, branch, description and date of the last commit. *)
Definition same_quick_facts (a b : ds_model) : Prop :=
  model_path a = model_path b
  /\ GitModel.type (model_repo a) = GitModel.type (model_repo b)
  /\ GitModel.branch (model_repo a) = GitModel.branch (model_repo b)
  /\ GitModel.describe (model_repo a) = GitModel.describe (model_repo b)
  /\ GitModel.date (model_repo a) = GitModel.date (model_repo b)
  /\ (model_repo a = None <-> model_repo b = None).

Definition five_categories : list string :=
  ["total"; "ondisk"; "git"; "annex"; "annex_worktree"].

(** The part of the format every mode shares: path, kind, branch,
    description and date. *)
Definition quick_fmt (E : env) (dsms : list ds_model) : list piece :=
  path_fmt E dsms
  ++ [Lit "  ["; Repl ds_type None None; Lit "]"]
  ++ [Lit "  "; Repl ds_branch (Some conv_N) None;
      Lit "  "; Repl ds_describe (Some conv_N) None;
      Lit " "; Repl ds_date (Some conv_D) None].






(** The exception [time.localtime] raises on the date of the last commit,
    when there is such a date and it is out of range. *)
Definition date_failure (E : env) (ds : ds_model) : option exn :=
  match GitModel.date (model_repo ds) with
  | Some d =>
      match localtime E d with
      | Ok _ => None
      | Raise exc => Some exc
      end
  | None => None
  end.

(** ** More worlds, and the runs the statements are checked on *)

(** The state a run ends in. *)
Definition final_state (o : outcome loc) : state :=
  match o with
  | Returns _ s => s
  | _ => empty_state
  end.

(** An empty directory. *)
Definition empty_dir_fs : fs_table := [("/e", Directory [])].

(** A directory holding a file and a nested repository that holds a file. *)
Definition nested_repo_fs : fs_table :=
  [("/d", Directory [".git"; "a"; "sub"]);
   ("/d/.git", Directory []);
   ("/d/a", RegularFile 100);
   ("/d/sub", Directory [".git"; "f"]);
   ("/d/sub/.git", Directory []);
   ("/d/sub/f", RegularFile 2048)].



(** A directory holding a symbolic link whose target is missing. *)
Definition broken_link_fs : fs_table :=
  [("/d", Directory ["l"]);
   ("/d/l", SymbolicLink "missing")].

(** An annex repository that tracks [/d/l] (100 bytes, content absent). *)
Definition annex_repo (root : string) : repo := {|
  repo_path := root; is_annex := true;
  is_under_annex p := Ok (String.eqb p "/d/l");
  info_size _ := Ok (PyNum (inject_Z 100));
  file_has_content _ := Ok false;
  count_objects := Ok (Some [("size", zero)]);
  repo_info := Ok (Some [("local annex size", zero);
                         ("size of annexed files in working tree", zero)]);
  get_active_branch := Ok "master";
  git_describe := Raise (CommandError "no tags");
  last_commit_date _ := Ok 0%Q;
  dirty := Ok false
|}.

(** A repository whose cleanliness check fails. *)
Definition failing_repo (root : string) : repo := {|
  repo_path := root; is_annex := true;
  is_under_annex _ := Ok false;
  info_size _ := Raise (CommandError "not annexed");
  file_has_content _ := Ok false;
  count_objects := Ok None;
  repo_info := Ok None;
  get_active_branch := Ok "master";
  git_describe := Raise (CommandError "no tags");
  last_commit_date _ := Ok 0%Q;
  dirty := Raise (CommandError "index is locked")
|}.

Definition two_datasets_fs : fs_table :=
  [("ds1", Directory []); ("ds2", Directory [])].

Definition two_models : list ds_model :=
  [{| model_repo := Some (failing_repo "/top/ds1"); model_path := "ds1" |};
   {| model_repo := Some (git_repo "/top/ds2"); model_path := "ds2" |}].

Definition plain_formatter : LsFormatter.t :=
  LsFormatter.mk "" "" "" "" "OK" "X" "-".

(** A record a caller already holds. *)
Definition top_record : Node.t :=
  Node.mk "top" "/" "/" (Some dir) (five "0.0 Bytes") "1970-01-01 00:00:00" None.

Definition caller_state : state := {| store := [top_record]; trace := [] |}.

Definition nested_dataset : dataset :=
  {| ds_path := "/d"; ds_repo := git_repo "/d"; get_subdatasets := Ok ["sub"] |}.

Definition scenario_run : outcome loc :=
  fs_traverse (table_env scenario_fs) 0 "/d" (git_repo "/repo") None true false None
    empty_state.

Definition scenario_final : state := Eval vm_compute in final_state scenario_run.

Definition empty_dir_run : outcome loc :=
  fs_traverse (table_env empty_dir_fs) 0 "/e" (git_repo "/repo") None true true None
    empty_state.

Definition empty_dir_final : state := Eval vm_compute in final_state empty_dir_run.

Definition nested_repo_run : outcome loc :=
  fs_traverse (table_env nested_repo_fs) 1 "/d" (git_repo "/d") None true true None
    empty_state.

Definition nested_repo_final : state := Eval vm_compute in final_state nested_repo_run.



Definition parent_run : outcome loc :=
  fs_traverse (table_env scenario_fs) 0 "/d" (git_repo "/repo") (Some 0) true false
    None caller_state.

Definition parent_final : state := Eval vm_compute in final_state parent_run.



(** A directory holding a file and a symbolic link to it. *)
Definition valid_link_fs : fs_table :=
  [("/d", Directory ["l"; "t"]);
   ("/d/l", SymbolicLink "t");
   ("/d/t", RegularFile 300)].

(** The record of the file [/d/a] of the scenario. *)
Definition file_a_record : Node.t :=
  Eval vm_compute in
    match fs_extract_dict (table_env scenario_fs) "/d/a" (git_repo "/repo") with
    | Ok n => n
    | Raise _ => Node.empty
    end.

Definition one_and_a_half : Q :=
  Eval vm_compute in
    match parse_decimal "1.5" with
    | Some q => q
    | None => 0%Q
    end.

(** The scenario walked without rendering, with a sidecar asked for. *)
Definition quiet_run : outcome loc :=
  fs_traverse (table_env scenario_fs) 0 "/d" (git_repo "/repo") None false false
    (Some json_file) empty_state.

Definition quiet_final : state := Eval vm_compute in final_state quiet_run.

(** The nested repositories walked with the sub-datasets added in. *)
Definition all_datasets_run : outcome loc :=
  _ds_traverse (table_env nested_repo_fs) 2 nested_dataset None None true true
    empty_state.

Definition all_datasets_final : state :=
  Eval vm_compute in final_state all_datasets_run.

(** Two models of the same path whose repositories answer the quick
    questions alike and the others differently. *)
Definition failing_model : ds_model :=
  {| model_repo := Some (failing_repo "/top/ds1"); model_path := "ds1" |}.

Definition annex_model : ds_model :=
  {| model_repo := Some (annex_repo "/elsewhere"); model_path := "ds1" |}.

(** A repository whose last commit is dated beyond what [time.localtime]
    accepts, and whose cleanliness check fails too. *)
Definition misdated_repo (root : string) : repo := {|
  repo_path := root; is_annex := true;
  is_under_annex _ := Ok false;
  info_size _ := Raise (CommandError "not annexed");
  file_has_content _ := Ok false;
  count_objects := Ok None;
  repo_info := Ok None;
  get_active_branch := Ok "master";
  git_describe := Raise (CommandError "no tags");
  last_commit_date _ := Ok (inject_Z (2 ^ 60));
  dirty := Raise (CommandError "index is locked")
|}.

Definition misdated_model : ds_model :=
  {| model_repo := Some (misdated_repo "/top/ds1"); model_path := "ds1" |}.







Local Close Scope nat_scope.

(** * Verification *)

(** ** Strings: splitting at a character *)

Lemma split_nonempty c s : split c s <> [].
Proof.
  destruct s as [|a s]; simpl; [discriminate|].
  destruct (Ascii.eqb a c); [discriminate|].
  destruct (split c s); discriminate.
Qed.

Lemma split_no_sep c s : contains_char c s = false -> split c s = [s].
Proof.
  induction s as [|a s IH]; simpl; intros H; [reflexivity|].
  apply orb_false_iff in H as [Ha Hs].
  rewrite Ha, (IH Hs). reflexivity.
Qed.

Lemma split_single c s x : split c s = [x] -> x = s /\ contains_char c s = false.
Proof.
  revert x. induction s as [|a s IH]; simpl; intros x H.
  - inversion H. auto.
  - destruct (Ascii.eqb a c) eqn:Ha.
    + inversion H. exfalso. eapply split_nonempty; eauto.
    + destruct (split c s) as [|h t] eqn:Hs; [exfalso; eapply split_nonempty; eauto|].
      inversion H; subst. destruct (IH h eq_refl) as [-> ->]. auto.
Qed.

Lemma split_app c a b :
  contains_char c a = false ->
  split c (a ++ String c b)%string = a :: split c b.
Proof.
  induction a as [|x a IH]; simpl; intros H.
  - rewrite Ascii.eqb_refl. reflexivity.
  - apply orb_false_iff in H as [Hx Ha].
    rewrite Hx, (IH Ha). reflexivity.
Qed.

Lemma split_cons c s x rest :
  split c s = x :: rest -> rest <> [] ->
  exists s', s = (x ++ String c s')%string /\ contains_char c x = false
             /\ split c s' = rest.
Proof.
  revert x rest. induction s as [|a s IH]; simpl; intros x rest H Hr.
  - inversion H; subst. congruence.
  - destruct (Ascii.eqb a c) eqn:Ha.
    + inversion H; subst. apply Ascii.eqb_eq in Ha. subst.
      exists s. auto.
    + destruct (split c s) as [|h t] eqn:Hs; [exfalso; eapply split_nonempty; eauto|].
      inversion H; subst.
      destruct (IH h rest eq_refl Hr) as (s' & -> & Hh & Hs').
      exists s'. simpl. rewrite Ha, Hh. auto.
Qed.

Lemma split_two c s a b :
  split c s = [a; b] <->
  s = (a ++ String c b)%string /\ contains_char c a = false
  /\ contains_char c b = false.
Proof.
  split.
  - intros H. apply split_cons in H as (s' & -> & Ha & Hs'); [|discriminate].
    apply split_single in Hs' as [-> Hb]. auto.
  - intros (-> & Ha & Hb). rewrite split_app, split_no_sep; auto.
Qed.

Lemma unit_has_no_space u k :
  dict_get u unit_converter = Some k -> contains_char space u = false.
Proof.
  unfold unit_converter. simpl.
  repeat match goal with
         | |- context [String.eqb u ?k'] =>
             destruct (String.eqb_spec u k') as [->|_]; [reflexivity|]
         end.
  discriminate.
Qed.

(** C3: [machinesize] returns a number for a string exactly when the string
    has the shape ["<number> <unit>"] (one space, a left part [float()]
    accepts, a unit of the ladder Bytes, kB, MB, GB, TB, PB), and raises a
    format error ([ValueError] or [KeyError]) for every other string; a bare
    number is passed through unchanged. *)
Theorem machinesize_format_error (py_float : string -> option Q) :
  (forall s,
      match machinesize py_float (PyStr s) with
      | Ok v => exists x k, number_unit py_float s x k
                            /\ v = x * inject_Z (1024 ^ k)
      | Raise e => (e = ValueError \/ e = KeyError)
                   /\ ~ exists x k, number_unit py_float s x k
      end)
  /\ (forall q, machinesize py_float (PyNum q) = Ok q).
Proof.
  split; [|reflexivity].
  intros s. unfold machinesize.
  assert (Hnu : forall x k, number_unit py_float s x k ->
            exists n u, split space s = [n; u] /\ py_float n = Some x
                        /\ dict_get u unit_converter = Some k).
  { intros x k (n & u & -> & Hn & Hf & Hu). exists n, u.
    repeat split; auto. apply split_two. repeat split; auto.
    eapply unit_has_no_space; eauto. }
  destruct (split space s) as [|n [|u [|w rest]]] eqn:Hs.
  - split; auto. intros (x & k & H). apply Hnu in H as (? & ? & ? & _). discriminate.
  - split; auto. intros (x & k & H). apply Hnu in H as (? & ? & ? & _). discriminate.
  - destruct (py_float n) as [x|] eqn:Hf.
    + destruct (dict_get u unit_converter) as [k|] eqn:Hu.
      * exists x, k. split; auto. exists n, u.
        apply split_two in Hs as (-> & Hn & _). auto.
      * split; auto. intros (x' & k & H).
        apply Hnu in H as (n' & u' & Heq & _ & Hu'). congruence.
    + split; auto. intros (x' & k & H).
      apply Hnu in H as (n' & u' & Heq & Hf' & _). congruence.
  - split; auto. intros (x & k & H). apply Hnu in H as (? & ? & ? & _). discriminate.
Qed.

Lemma digits_no_dot d : contains_char dot (NilEmpty.string_of_uint d) = false.
Proof. induction d; simpl; auto. Qed.

Lemma digits_no_space d : contains_char space (NilEmpty.string_of_uint d) = false.
Proof. induction d; simpl; auto. Qed.

Lemma to_uint_nonnil (n : N) : N.to_uint n <> Decimal.Nil.
Proof.
  destruct n; simpl; [discriminate|]. apply DecimalPos.Unsigned.to_uint_nonnil.
Qed.

Lemma parse_N_show n : parse_N (show_N n) = Some n.
Proof.
  unfold parse_N, show_N.
  assert (H : NilZero.uint_of_string (NilEmpty.string_of_uint (N.to_uint n))
              = Some (N.to_uint n)).
  { pose proof (to_uint_nonnil n) as Hn.
    rewrite <- (NilZero.usu (N.to_uint n) Hn).
    unfold NilZero.string_of_uint. destruct (N.to_uint n); congruence. }
  rewrite H. simpl. f_equal. apply DecimalN.Unsigned.of_to.
Qed.

Lemma show_digit_length (d : N) : (d < 10)%N -> String.length (show_N d) = 1%nat.
Proof.
  intros H.
  assert (Hd : (d = 0 \/ d = 1 \/ d = 2 \/ d = 3 \/ d = 4 \/ d = 5 \/ d = 6
               \/ d = 7 \/ d = 8 \/ d = 9)%N) by lia.
  repeat (destruct Hd as [->|Hd]; [reflexivity|]). subst. reflexivity.
Qed.

Lemma parse_decimal_tenths (t : N) :
  parse_decimal (show_tenths t)
  = Some (inject_Z (Z.of_N (t / 10))
          + inject_Z (Z.of_N (t mod 10)) / inject_Z (10 ^ Z.of_nat 1)).
Proof.
  unfold parse_decimal, show_tenths.
  rewrite split_app by apply digits_no_dot.
  rewrite split_no_sep by apply digits_no_dot.
  rewrite !parse_N_show.
  rewrite show_digit_length by (apply N.mod_lt; discriminate).
  reflexivity.
Qed.

Lemma tenths_value (t : Z) :
  (0 <= t)%Z ->
  inject_Z (Z.of_N (Z.to_N t / 10))
  + inject_Z (Z.of_N (Z.to_N t mod 10)) / inject_Z (10 ^ Z.of_nat 1)
  == inject_Z t / 10.
Proof.
  intros Ht.
  rewrite N2Z.inj_div, N2Z.inj_mod, Z2N.id by assumption.
  change (Z.of_N 10) with 10%Z. change (10 ^ Z.of_nat 1)%Z with 10%Z.
  rewrite (Z.div_mod t 10) at 3 by discriminate.
  rewrite inject_Z_plus, inject_Z_mult.
  change (inject_Z 10) with 10. field.
Qed.

Lemma select_unit_le b : (select_unit b <= 5)%nat.
Proof.
  unfold select_unit.
  repeat match goal with |- context [if ?c then _ else _] => destruct c end; lia.
Qed.

Lemma ladder_units :
  Forall2 (fun u k => dict_get u unit_converter = Some k) ladder
          [0; 1; 2; 3; 4; 5]%Z.
Proof. repeat constructor. Qed.

Lemma ladder_unit k :
  (k <= 5)%nat ->
  dict_get (nth k ladder "") unit_converter = Some (Z.of_nat k)
  /\ contains_char space (nth k ladder "") = false.
Proof.
  intros H. do 6 (destruct k as [|k]; [split; reflexivity|]). lia.
Qed.

Lemma unit_step_pos k : 0 < unit_step k.
Proof.
  unfold unit_step. change 0 with (inject_Z 0). rewrite <- Zlt_Qlt.
  apply Z.pow_pos_nonneg; lia.
Qed.

Lemma tenths_nonneg b : 0 <= b -> (0 <= tenths b)%Z.
Proof.
  intros Hb. unfold tenths.
  change 0%Z with (Qfloor 0). apply Qfloor_resp_le.
  pose proof (unit_step_pos (select_unit b)) as HU.
  assert (0 <= b * inject_Z 10 / unit_step (select_unit b)).
  { apply Qle_shift_div_l; auto. change (inject_Z 10) with 10. lra. }
  lra.
Qed.

Lemma floor_half (z : Z) : Qfloor (inject_Z z + (1 # 2)) = z.
Proof.
  apply Z.le_antisymm.
  - apply Z.lt_succ_r. rewrite Zlt_Qlt.
    pose proof (Qfloor_le (inject_Z z + (1 # 2))) as H.
    unfold Z.succ. rewrite inject_Z_plus. change (inject_Z 1) with 1. lra.
  - rewrite <- (Qfloor_Z z) at 1. apply Qfloor_resp_le. lra.
Qed.

Section RoundTrip.

Variable py_float : string -> option Q.
Hypothesis py_float_decimal :
  forall s q, parse_decimal s = Some q -> py_float s = Some q.

Lemma machinesize_humanize_eq (b : Q) :
  0 <= b ->
  exists m,
    machinesize py_float (PyStr (humanize b)) = Ok m
    /\ m == inject_Z (tenths b) / 10 * unit_step (select_unit b).
Proof.
  intros Hb. unfold humanize, machinesize. fold (tenths b).
  destruct (ladder_unit (select_unit b) (select_unit_le b)) as [Hu Hsp].
  assert (Hsplit : split space
            (show_tenths (Z.to_N (tenths b))
             ++ String space (nth (select_unit b) ladder ""))%string
          = [show_tenths (Z.to_N (tenths b)); nth (select_unit b) ladder ""]).
  { apply split_two. repeat split; auto.
    unfold show_tenths.
    clear. generalize (Z.to_N (tenths b)). intros t.
    unfold show_N.
    generalize (N.to_uint (t / 10)) (N.to_uint (t mod 10)). intros d1 d2.
    induction d1; simpl; auto using digits_no_space. }
  rewrite Hsplit.
  rewrite (py_float_decimal _ _ (parse_decimal_tenths _)).
  rewrite Hu. eexists. split; [reflexivity|].
  rewrite tenths_value by (apply tenths_nonneg; assumption).
  reflexivity.
Qed.

(** C2: for every byte count [b >= 0], [machinesize (humanize b)] lies within
    one step of the selected unit of [b], and equals [b] when [b] is a
    multiple of that unit; [humanize] renders on the ladder Bytes, kB, MB,
    GB, TB, PB, whose units [machinesize] reads as the powers 1024^0 ..
    1024^5.  [humanize] is the function modelled from the spec, and
    [float()] is assumed to read the plain decimal literals. *)
Theorem machinesize_humanize_round_trip (b : Z) :
  (0 <= b)%Z ->
  let k := select_unit (inject_Z b) in
  Forall2 (fun u step => dict_get u unit_converter = Some step) ladder
          [0; 1; 2; 3; 4; 5]%Z
  /\ (exists t, humanize (inject_Z b)
                = (show_tenths t ++ String space (nth k ladder ""))%string)
  /\ exists m,
      machinesize py_float (PyStr (humanize (inject_Z b))) = Ok m
      /\ Qabs (m - inject_Z b) <= unit_step k
      /\ ((b mod 1024 ^ Z.of_nat k = 0)%Z -> m == inject_Z b).
Proof.
  intros Hb k. split; [apply ladder_units|].
  split; [eexists; reflexivity|].
  assert (Hq : 0 <= inject_Z b).
  { change 0 with (inject_Z 0). rewrite <- Zle_Qle. assumption. }
  destruct (machinesize_humanize_eq _ Hq) as (m & Hm & Hv).
  fold k in Hv. exists m. split; [exact Hm|].
  pose proof (unit_step_pos k) as HU.
  set (U := unit_step k) in *.
  set (x := inject_Z b * inject_Z 10 / U).
  assert (Ht : tenths (inject_Z b) = Qfloor (x + (1 # 2))) by reflexivity.
  assert (Hx : inject_Z b == x / 10 * U).
  { unfold x. change (inject_Z 10) with 10. field. lra. }
  split.
  - pose proof (Qfloor_le (x + (1 # 2))) as H1.
    pose proof (Qlt_floor (x + (1 # 2))) as H2.
    rewrite <- Ht in H1, H2.
    rewrite inject_Z_plus in H2. change (inject_Z 1) with 1 in H2.
    set (t := inject_Z (tenths (inject_Z b))) in *.
    assert (Hd : m - inject_Z b == (t - x) * (1 # 10) * U).
    { rewrite Hv, Hx. field. }
    rewrite Hd, Qabs_Qmult, (Qabs_pos U) by lra.
    rewrite <- (Qmult_1_l U) at 2.
    apply Qmult_le_compat_r; [|lra].
    apply Qabs_Qle_condition. split; lra.
  - intros Hmod.
    apply Z.mod_divide in Hmod; [|apply Z.pow_nonzero; lia].
    destruct Hmod as [c Hc].
    assert (HxZ : x == inject_Z (10 * c)).
    { unfold x, U, unit_step. rewrite Hc, !inject_Z_mult.
      change (inject_Z 10) with 10. field.
      intros H0. apply (Qlt_irrefl 0). rewrite <- H0 at 2. exact HU. }
    assert (Ht' : tenths (inject_Z b) = (10 * c)%Z).
    { rewrite Ht, HxZ. apply floor_half. }
    rewrite Hv, Ht', Hc. unfold U, unit_step.
    rewrite !inject_Z_mult. change (inject_Z 10) with 10. field.
Qed.

End RoundTrip.

(** The round trip at 1536 bytes, with [parse_decimal] as [float()]. *)
Lemma machinesize_humanize_round_trip_witness :
  (0 <= 1536)%Z /\
  exists m,
    machinesize parse_decimal (PyStr (humanize (inject_Z 1536))) = Ok m
    /\ Qabs (m - inject_Z 1536) <= unit_step (select_unit (inject_Z 1536))
    /\ ((1536 mod 1024 ^ Z.of_nat (select_unit (inject_Z 1536)) = 0)%Z
        -> m == inject_Z 1536).
Proof.
  split; [lia|].
  exact (proj2 (proj2 (machinesize_humanize_round_trip parse_decimal
                         (fun s q H => H) 1536%Z ltac:(lia)))).
Defined.

(** ** The store *)

Lemma read_app_old (h : heap) n l : (l < List.length h)%nat -> read (h ++ [n]) l = read h l.
Proof. intros H. unfold read. apply app_nth1. exact H. Qed.

Lemma read_app_new (h : heap) n : read (h ++ [n]) (List.length h) = n.
Proof. unfold read. rewrite app_nth2, Nat.sub_diag by lia. reflexivity. Qed.

Lemma update_length l f (h : heap) : List.length (update l f h) = List.length h.
Proof.
  revert l. induction h as [|n h IH]; intros [|l]; simpl; auto.
Qed.

Lemma read_update_eq l f (h : heap) :
  (l < List.length h)%nat -> read (update l f h) l = f (read h l).
Proof.
  unfold read.
  revert l. induction h as [|n h IH]; intros [|l]; simpl; intros H; try lia; auto.
  apply IH. lia.
Qed.

Lemma read_update_neq l l' f (h : heap) :
  l <> l' -> read (update l f h) l' = read h l'.
Proof.
  unfold read.
  revert l l'. induction h as [|n h IH]; intros [|l] [|l']; simpl; intros H;
    try congruence; auto.
Qed.

(** ** Inversion of the monad *)

Lemma bind_returns {A B} (m : M A) (k : A -> M B) s b s' :
  bind m k s = Returns b s' ->
  exists a s1, m s = Returns a s1 /\ k a s1 = Returns b s'.
Proof.
  unfold bind. destruct (m s) as [a s1| |]; try discriminate. eauto.
Qed.

Lemma lift_returns {A} (r : result A) s a s' :
  lift r s = Returns a s' -> r = Ok a /\ s' = s.
Proof.
  unfold lift. destruct r; intros H; inversion H; auto.
Qed.

Lemma ret_returns {A} (a b : A) s s' : ret a s = Returns b s' -> b = a /\ s' = s.
Proof. unfold ret. intros H; inversion H; auto. Qed.

Ltac minv H :=
  match type of H with
  | bind _ _ _ = Returns _ _ =>
      let a := fresh "a" in let s1 := fresh "s" in
      let H1 := fresh "Hm" in let H2 := fresh "Hk" in
      apply bind_returns in H as (a & s1 & H1 & H2)
  | lift _ _ = Returns _ _ =>
      let H1 := fresh "Hr" in
      apply lift_returns in H as [H1 ->]
  | ret _ _ = Returns _ _ =>
      let H1 := fresh "Hr" in
      apply ret_returns in H as [H1 ->]
  end.

Lemma for_each_invariant {A B} (I : B -> state -> Prop) (body : B -> A -> M B) xs :
  (forall acc x s acc' s',
      In x xs -> I acc s -> body acc x s = Returns acc' s' -> I acc' s') ->
  forall acc s acc' s',
    I acc s -> for_each xs acc body s = Returns acc' s' -> I acc' s'.
Proof.
  induction xs as [|x xs IH]; simpl; intros Hstep acc s acc' s' HI H.
  - minv H. subst. assumption.
  - minv H. eapply IH; [| |exact Hk].
    + intros. eapply Hstep; eauto.
    + eapply Hstep; eauto.
Qed.

(** ** What a traversal may do to the records that exist already *)

Lemma renamed_refl a : renamed a a.
Proof. exists (Node.name a). destruct a; reflexivity. Qed.

Lemma renamed_trans a b c : renamed a b -> renamed b c -> renamed a c.
Proof. intros [n1 ->] [n2 ->]. exists n2. reflexivity. Qed.

Lemma renamed_size a b : renamed a b -> Node.size b = Node.size a.
Proof. intros [nm ->]. reflexivity. Qed.

Section TraversalFacts.

Local Open Scope nat_scope.

Variable E : env.

Lemma fs_extract_returns nodepath r s l s' :
  fs_extract E nodepath r s = Returns l s' ->
  exists n, fs_extract_dict E nodepath r = Ok n
            /\ l = List.length (store s)
            /\ store s' = store s ++ [n]
            /\ trace s' = trace s.
Proof.
  unfold fs_extract. intros H. minv H. minv Hm.
  unfold alloc in Hk. inversion Hk; subst. simpl. eauto.
Qed.

Lemma fs_render_store path l json s u s' :
  fs_render E path l json s = Returns u s' -> store s' = store s.
Proof.
  unfold fs_render. destruct json as [[| |]|]; intros H.
  - minv H. minv Hm. unfold emit in Hk. inversion Hk. reflexivity.
  - unfold emit in H. inversion H. reflexivity.
  - destruct (path_exists E _).
    + minv H. minv Hm. unfold emit in Hk. inversion Hk. reflexivity.
    + minv H. reflexivity.
  - minv H. reflexivity.
Qed.

(** [ignored(path)] holds whenever [ignored(path, only_hidden=True)] does. *)
Lemma ignored_only_hidden path :
  ignored E path false = Ok false -> ignored E path true = Ok false.
Proof.
  unfold ignored. rewrite andb_false_r.
  destruct (isdir E _ || isdir E _); simpl; [discriminate|auto].
Qed.

End TraversalFacts.

Section TreeWalker.

Local Open Scope nat_scope.

Variable E : env.

Lemma child_of_transport path r recursive names h h' c :
  read h' c = read h c ->
  child_of E path r recursive names h c -> child_of E path r recursive names h' c.
Proof.
  intros Heq (n & rec0 & Hin & Hig & Hex & Hrd).
  exists n, rec0. rewrite Heq. auto.
Qed.

(** The loop invariant survives any step that only extends the store and
    renames the self entry. *)
Lemma loop_inv_transport h0 n0 path r recursive names children s s' :
  loop_inv E h0 n0 path r recursive names children s ->
  List.length (store s) <= List.length (store s') ->
  (forall x, x < List.length (store s) -> x <> S (List.length h0) ->
             read (store s') x = read (store s) x) ->
  renamed (read (store s) (S (List.length h0)))
          (read (store s') (S (List.length h0))) ->
  loop_inv E h0 n0 path r recursive names children s'.
Proof.
  intros (cs & -> & Hlen & Hold & Hfs & Hself & Hnd & Hcs) Hle Hsame Hren.
  exists cs. repeat split; auto; try lia.
  - intros x Hx. rewrite Hsame by lia. auto.
  - rewrite Hsame by lia. auto.
  - eapply renamed_trans; eauto.
  - eapply Forall_impl; [|exact Hcs]. intros c [Hc Hch]. split; [lia|].
    eapply child_of_transport; [|exact Hch]. apply Hsame; lia.
Qed.

Lemma loop_inv_push h0 n0 path r recursive names cs s s' n rec0 :
  loop_inv E h0 n0 path r recursive names (S (List.length h0) :: cs) s ->
  store s' = store s ++ [rec0] ->
  In n names ->
  ignored E (opj path n) true = Ok false ->
  fs_extract_dict E (opj path n) r = Ok rec0 ->
  loop_inv E h0 n0 path r recursive names
    (S (List.length h0) :: cs ++ [List.length (store s)]) s'.
Proof.
  intros (cs' & Heq & Hlen & Hold & Hfs & Hself & Hnd & Hcs) Hst Hin Hig Hex.
  inversion Heq; subst cs'. clear Heq.
  exists (cs ++ [List.length (store s)]).
  assert (Hlen' : List.length (store s') = S (List.length (store s))).
  { rewrite Hst, length_app. simpl. lia. }
  repeat split; auto; try lia.
  - intros x Hx. rewrite Hst, read_app_old by lia. auto.
  - rewrite Hst, read_app_old by lia. auto.
  - rewrite Hst, read_app_old by lia. auto.
  - apply NoDup_app; auto.
    + repeat constructor. intros [].
    + intros x Hx [<-|[]]. rewrite Forall_forall in Hcs.
      destruct (Hcs _ Hx) as [Hb _]. lia.
  - apply Forall_app. split.
    + eapply Forall_impl; [|exact Hcs]. intros c [Hc Hch]. split; [lia|].
      eapply child_of_transport; [|exact Hch].
      rewrite Hst. apply read_app_old. lia.
    + constructor; [|constructor]. split; [lia|].
      exists n, rec0. repeat split; auto. left.
      rewrite Hst. apply read_app_new.
Qed.

Lemma loop_inv_resize h0 n0 path r names children s s' c sz :
  loop_inv E h0 n0 path r true names children s ->
  In c (tl children) ->
  store s' = update c (Node.set_size sz) (store s) ->
  loop_inv E h0 n0 path r true names children s'.
Proof.
  intros (cs & -> & Hlen & Hold & Hfs & Hself & Hnd & Hcs) Hin Hst.
  simpl in Hin. rewrite Forall_forall in Hcs.
  destruct (Hcs _ Hin) as [Hc _].
  exists cs. rewrite Hst, update_length.
  repeat split; auto.
  - intros x Hx. rewrite read_update_neq by lia. auto.
  - rewrite read_update_neq by lia. auto.
  - rewrite read_update_neq by lia. auto.
  - apply Forall_forall. intros c' Hc'. destruct (Hcs _ Hc') as [Hb Hch].
    split; [lia|].
    destruct (Nat.eq_dec c c') as [<-|Hne].
    + destruct Hch as (n & rec0 & Hn & Hig & Hex & Hrd).
      exists n, rec0. repeat split; auto. right. split; auto.
      exists sz. rewrite read_update_eq by lia.
      destruct Hrd as [->|(_ & sz0 & ->)]; reflexivity.
    + eapply child_of_transport; [|exact Hch].
      apply read_update_neq. exact Hne.
Qed.

Variable traverse : string -> loc -> M loc.
Hypothesis traverse_fresh :
  forall nodepath p s l s',
    traverse nodepath p s = Returns l s' -> fresh_result (Some p) s l s'.

Lemma visit_step h0 n0 path r recursive names children node s children' s' :
  In node names ->
  loop_inv E h0 n0 path r recursive names children s ->
  visit E traverse path r recursive children node s = Returns children' s' ->
  loop_inv E h0 n0 path r recursive names children' s'.
Proof.
  intros Hin Hinv H. unfold visit in H.
  apply bind_returns in H as (ign & s0 & Hign & H).
  apply lift_returns in Hign as [Hign ->].
  apply bind_returns in H as (children1 & s1 & Happ & H).
  apply bind_returns in H as (descend & s2 & Hdesc & Hbody).
  (* the entry is appended unless hidden *)
  assert (Hmid : loop_inv E h0 n0 path r recursive names children1 s1
                 /\ (ign = false ->
                     exists cs c, children1 = S (List.length h0) :: cs ++ [c])).
  { destruct ign; simpl in Happ.
    - minv Happ. subst. split; auto. discriminate.
    - apply bind_returns in Happ as (c & s3 & Hex & Hret).
      minv Hret. subst.
      apply fs_extract_returns in Hex as (rec0 & Hex & -> & Hst & _).
      destruct Hinv as (cs & -> & Hrest).
      split; [|intros _; exists cs, (List.length (store s)); reflexivity].
      eapply loop_inv_push; eauto. exists cs. auto. }
  clear Happ Hinv. destruct Hmid as (Hinv & Hshape).
  assert (Hd : s2 = s1 /\ (descend = true -> recursive = true /\ ign = false)).
  { destruct recursive.
    - apply bind_returns in Hdesc as (ign' & s3 & Hign' & Hret).
      apply lift_returns in Hign' as [Hign' ->].
      minv Hret. subst. split; auto.
      intros Hn. split; auto. apply negb_true_iff in Hn. subst.
      apply ignored_only_hidden in Hign'. congruence.
    - minv Hdesc. subst. split; auto. discriminate. }
  destruct Hd as [-> Hd]. destruct descend.
  - destruct (Hd eq_refl) as [-> Hig]. destruct (Hshape Hig) as (cs & c & ->).
    assert (Hlast : last (S (List.length h0) :: cs ++ [c]) 0 = c)
      by (change (S (List.length h0) :: cs ++ [c])
            with ((S (List.length h0) :: cs) ++ [c]); apply last_last).
    unfold loc in Hbody. rewrite Hlast in Hbody. clear Hlast.
    apply bind_returns in Hbody as (subdir & s3 & Htr & Hbody).
    apply bind_returns in Hbody as (sub & s4 & Hload & Hbody).
    apply bind_returns in Hbody as (u & s5 & Hmod & Hret).
    minv Hret. subst.
    unfold load in Hload. inversion Hload; subst. clear Hload.
    unfold modify in Hmod. inversion Hmod; subst. clear Hmod.
    simpl in Htr.
    apply traverse_fresh in Htr as [Hl [Hlen Hfr]].
    eapply loop_inv_resize with (c := c);
      [| simpl; apply in_or_app; right; left; reflexivity | reflexivity].
    eapply loop_inv_transport; [exact Hinv|exact Hlen| |].
    + intros x Hx Hne. destruct (Hfr x Hx) as [Heq|[Hp _]]; auto.
      inversion Hp. congruence.
    + destruct Hinv as (? & _ & Hlt & _).
      destruct (Hfr _ Hlt) as [->|[_ Hren]]; auto using renamed_refl.
  - minv Hbody. subst. assumption.
Qed.

End TreeWalker.

Lemma rename_parent_length parent h :
  List.length (rename_parent parent h) = List.length h.
Proof. destruct parent; simpl; auto using update_length. Qed.

Ltac reads :=
  repeat first
    [ rewrite read_update_neq by lia
    | rewrite read_update_eq by (rewrite ?update_length, ?rename_parent_length; lia) ].

Section TreeWalkerResult.

Local Open Scope nat_scope.

Variable E : env.

Section Body.

Variable traverse : string -> loc -> M loc.
Hypothesis traverse_fresh :
  forall nodepath p s l s',
    traverse nodepath p s = Returns l s' -> fresh_result (Some p) s l s'.

Lemma fs_traverse_body_file path r parent render recursive json s fs s' :
  isdir E path = false ->
  fs_traverse_body E traverse path r parent render recursive json s
  = Returns fs s' ->
  exists n0, fs_extract_dict E path r = Ok n0
             /\ fs = List.length (store s)
             /\ store s' = store s ++ [n0]
             /\ trace s' = trace s.
Proof.
  intros Hdir H. unfold fs_traverse_body in H.
  apply bind_returns in H as (fs0 & s1 & Hex & H).
  rewrite Hdir in H. apply ret_returns in H as [-> ->].
  eapply fs_extract_returns; eauto.
Qed.

Lemma fs_traverse_body_dir path r parent render recursive json s fs s' :
  isdir E path = true ->
  fs_traverse_body E traverse path r parent render recursive json s
  = Returns fs s' ->
  dir_store E path r parent recursive s fs s'.
Proof.
  intros Hdir H. unfold fs_traverse_body in H.
  apply bind_returns in H as (fs0 & s1 & Hex & H).
  rewrite Hdir in H.
  apply bind_returns in H as (self & s2 & Hex' & H).
  apply bind_returns in H as (names & s2' & Hls & H).
  apply lift_returns in Hls as [Hls ->].
  apply bind_returns in H as (children & s3 & Hloop & H).
  apply bind_returns in H as (new_size & s3' & Hsum & H).
  apply lift_returns in Hsum as [Hsum ->].
  apply bind_returns in H as (u1 & s4 & Hm1 & H).
  apply bind_returns in H as (u2 & s5 & Hm2 & H).
  apply bind_returns in H as (u3 & s6 & Hm3 & H).
  apply bind_returns in H as (children' & s7 & Hpar & H).
  apply bind_returns in H as (u4 & s8 & Hm4 & H).
  apply bind_returns in H as (u5 & s9 & Hren & H).
  apply ret_returns in H as [-> ->].
  apply fs_extract_returns in Hex as (n0 & Hn0 & -> & Hst1 & _).
  apply fs_extract_returns in Hex' as (n0' & Hn0' & -> & Hst2 & _).
  assert (n0' = n0) by congruence. subst n0'.
  assert (Hloc : List.length (store s1) = S (List.length (store s)))
    by (rewrite Hst1, length_app; simpl; lia).
  rewrite Hloc in *.
  assert (Hinv : loop_inv E (store s) n0 path r recursive names children s3).
  { eapply for_each_invariant; [| |exact Hloop].
    - intros acc x sa acc' sa' Hin Hi Hv.
      eapply visit_step; eauto.
    - exists []. rewrite Hst2, Hst1, !length_app. simpl.
      repeat split; auto; try lia; try constructor.
      + intros x Hx. rewrite !read_app_old by (rewrite ?length_app; simpl; lia).
        reflexivity.
      + rewrite read_app_old by (rewrite ?length_app; simpl; lia).
        apply read_app_new.
      + replace (S (List.length (store s)))
          with (List.length (store s ++ [n0]))
          by (rewrite length_app; simpl; lia).
        rewrite read_app_new. apply renamed_refl. }
  destruct Hinv as (cs & -> & Hinv).
  simpl in Hsum, Hm2, Hm3.
  unfold modify in Hm1, Hm2, Hm3, Hm4.
  inversion Hm1; subst s4. inversion Hm2; subst s5. inversion Hm3; subst s6.
  clear Hm1 Hm2 Hm3. simpl in *.
  assert (Hs7 : children' = S (List.length (store s)) :: opt_list parent ++ cs
                /\ store s7 = rename_parent parent
                     (update (S (List.length (store s))) (Node.set_name ".")
                        (update (S (List.length (store s))) (Node.set_size new_size)
                           (update (List.length (store s)) (Node.set_size new_size)
                              (store s3))))).
  { destruct parent as [p|].
    - apply bind_returns in Hpar as (u & s' & Hm & Hret).
      minv Hret. subst. unfold modify in Hm. inversion Hm; subst.
      split; reflexivity.
    - minv Hpar. subst. split; reflexivity. }
  destruct Hs7 as [-> Hs7].
  inversion Hm4; subst s8. clear Hm4. simpl in Hren.
  assert (Hfinal : store s9 = update (List.length (store s))
            (Node.set_nodes (S (List.length (store s)) :: opt_list parent ++ cs))
            (store s7)).
  { destruct render.
    - apply bind_returns in Hren as (u & sa & Hr1 & Hr2).
      apply fs_render_store in Hr1. unfold emit in Hr2.
      inversion Hr2; subst. simpl. rewrite Hr1. reflexivity.
    - minv Hren. reflexivity. }
  exists names, n0, cs, s3, new_size.
  repeat split; auto.
  - exists cs. auto.
  - rewrite Hfinal, Hs7. reflexivity.
Qed.

End Body.

End TreeWalkerResult.

Section TreeWalkerTheory.

Local Open Scope nat_scope.

Variable E : env.

Lemma dir_store_length path r parent recursive s fs s' :
  dir_store E path r parent recursive s fs s' ->
  S (S (List.length (store s))) <= List.length (store s').
Proof.
  intros (names & n0 & cs & s3 & new_size & -> & _ & _ & Hinv & _ & ->).
  destruct Hinv as (cs' & _ & Hlen & _).
  rewrite update_length, rename_parent_length, !update_length. lia.
Qed.

Lemma dir_store_fresh path r parent recursive s fs s' :
  dir_store E path r parent recursive s fs s' ->
  fresh_result parent s fs s'.
Proof.
  intros H. pose proof (dir_store_length _ _ _ _ _ _ _ H) as Hlen.
  destruct H as (names & n0 & cs & s3 & new_size & -> & _ & _ & Hinv & _ & Hst).
  destruct Hinv as (cs' & _ & Hlen3 & Hold & _).
  split; [lia|]. split; [lia|].
  intros x Hx. rewrite Hst.
  destruct parent as [p|]; unfold rename_parent.
  - destruct (Nat.eq_dec p x) as [->|Hne].
    + right. split; auto. reads. rewrite Hold by lia.
      exists "..". reflexivity.
    + left. reads. auto.
  - left. reads. auto.
Qed.

Lemma fs_traverse_body_fresh traverse path r parent render recursive json s fs s' :
  (forall nodepath p s l s',
      traverse nodepath p s = Returns l s' -> fresh_result (Some p) s l s') ->
  fs_traverse_body E traverse path r parent render recursive json s
  = Returns fs s' ->
  fresh_result parent s fs s'.
Proof.
  intros Hrec H. destruct (isdir E path) eqn:Hdir.
  - eapply dir_store_fresh. eapply fs_traverse_body_dir; eauto.
  - eapply fs_traverse_body_file in H as (n0 & _ & -> & Hst & _); eauto.
    split; [|split].
    + rewrite Hst, length_app. simpl. lia.
    + rewrite Hst, length_app. simpl. lia.
    + intros x Hx. left. rewrite Hst. apply read_app_old. exact Hx.
Qed.

Lemma fs_traverse_unfold fuel path r parent render recursive json :
  fs_traverse E fuel path r parent render recursive json
  = fs_traverse_body E
      (fun nodepath p =>
         match fuel with
         | O => out_of_fuel
         | S fuel' => fs_traverse E fuel' nodepath r (Some p) true recursive json
         end)
      path r parent render recursive json.
Proof. destruct fuel; reflexivity. Qed.

(** A traversal returns a new record and leaves the records that exist
    alone, but for the name of the parent it was given. *)
Lemma fs_traverse_fresh fuel :
  forall path r parent render recursive json s fs s',
    fs_traverse E fuel path r parent render recursive json s = Returns fs s' ->
    fresh_result parent s fs s'.
Proof.
  induction fuel as [|fuel IH]; intros path r parent render recursive json s fs s' H;
    rewrite fs_traverse_unfold in H;
    (eapply fs_traverse_body_fresh; [|exact H]);
    intros nodepath p s0 l s0' Hn.
  - discriminate Hn.
  - eapply IH. exact Hn.
Qed.

Lemma fs_traverse_dir_store fuel path r parent render recursive json s fs s' :
  isdir E path = true ->
  fs_traverse E fuel path r parent render recursive json s = Returns fs s' ->
  dir_store E path r parent recursive s fs s'.
Proof.
  intros Hdir H. rewrite fs_traverse_unfold in H.
  eapply fs_traverse_body_dir; [|exact Hdir|exact H].
  intros nodepath p s0 l s0' Hn. destruct fuel; [discriminate Hn|].
  eapply fs_traverse_fresh. exact Hn.
Qed.

Lemma dir_store_result path r parent recursive s fs s' :
  (forall p, parent = Some p -> p < List.length (store s)) ->
  dir_store E path r parent recursive s fs s' ->
  dir_result E path r parent recursive s fs s'.
Proof.
  intros Hvalid (names & n0 & cs & s3 & new_size & -> & Hn0 & Hls & Hinv & Hsum & Hst).
  destruct Hinv as (cs' & Hcs' & Hlen3 & Hold & Hfs & Hself & Hnd & Hcs).
  inversion Hcs'; subst cs'. clear Hcs'.
  assert (Hp : forall p, parent = Some p -> p < List.length (store s)) by exact Hvalid.
  assert (Hchild : forall c, In c cs -> read (store s') c = read (store s3) c).
  { intros c Hc. rewrite Forall_forall in Hcs. destruct (Hcs _ Hc) as [Hb _].
    rewrite Hst. destruct parent as [p|]; unfold rename_parent.
    - specialize (Hp p eq_refl). reads. reflexivity.
    - reads. reflexivity. }
  exists names, n0, cs, new_size. repeat split; auto.
  - rewrite Hst. destruct parent as [p|]; unfold rename_parent.
    + specialize (Hp p eq_refl). reads. rewrite Hfs. reflexivity.
    + reads. rewrite Hfs. reflexivity.
  - destruct Hself as [nm Hself].
    rewrite Hst. destruct parent as [p|]; unfold rename_parent.
    + specialize (Hp p eq_refl). reads. rewrite Hself. reflexivity.
    + reads. rewrite Hself. reflexivity.
  - rewrite <- Hsum. f_equal. unfold sizes_of. apply map_ext_in.
    intros c Hc. rewrite Hchild; auto.
  - apply Forall_forall. intros c Hc. rewrite Forall_forall in Hcs.
    destruct (Hcs _ Hc) as [Hb Hch]. split.
    + rewrite Hst, update_length, rename_parent_length, !update_length. lia.
    + eapply child_of_transport; [|exact Hch]. auto.
  - intros p ->. specialize (Hp p eq_refl). rewrite Hst. unfold rename_parent. reads.
    rewrite Hold by lia. reflexivity.
  - intros x Hx Hne. rewrite Hst. destruct parent as [p|]; unfold rename_parent.
    + assert (p <> x) by congruence. reads. auto.
    + reads. auto.
Qed.

Lemma fs_traverse_dir_result fuel path r parent render recursive json s fs s' :
  isdir E path = true ->
  (forall p, parent = Some p -> p < List.length (store s)) ->
  fs_traverse E fuel path r parent render recursive json s = Returns fs s' ->
  dir_result E path r parent recursive s fs s'.
Proof.
  intros Hdir Hvalid H. apply dir_store_result; auto.
  eapply fs_traverse_dir_store; eauto.
Qed.

End TreeWalkerTheory.

(** ** Dictionaries *)

Lemma dict_get_set_same {V} k (v : V) d : dict_get k (dict_set k v d) = Some v.
Proof.
  induction d as [|[k' v'] d IH]; simpl.
  - rewrite String.eqb_refl. reflexivity.
  - destruct (String.eqb k k') eqn:Hk; simpl; rewrite Hk; auto.
Qed.

Lemma dict_get_set_other {V} k k' (v : V) d :
  k <> k' -> dict_get k' (dict_set k v d) = dict_get k' d.
Proof.
  intros Hne. induction d as [|[k0 v0] d IH]; simpl.
  - destruct (String.eqb_spec k' k); congruence.
  - destruct (String.eqb_spec k k0) as [->|Hk]; simpl.
    + destruct (String.eqb_spec k' k0); congruence.
    + rewrite IH. reflexivity.
Qed.

Lemma dict_get_mapM {V W} (f : V -> result W) d d' k :
  dict_mapM f d = Ok d' ->
  match dict_get k d with
  | Some v => exists w, f v = Ok w /\ dict_get k d' = Some w
  | None => dict_get k d' = None
  end.
Proof.
  revert d'. induction d as [|[k0 v0] d IH]; simpl; intros d' H.
  - inversion H. reflexivity.
  - destruct (f v0) as [w|] eqn:Hf; simpl in H; [|discriminate].
    destruct (dict_mapM f d) as [r|] eqn:Hr; simpl in H; [|discriminate].
    inversion H; subst. simpl.
    destruct (String.eqb k k0); eauto. apply IH. reflexivity.
Qed.

Lemma dict_mapM_keys {V W} (f : V -> result W) d d' :
  dict_mapM f d = Ok d' -> dict_keys d' = dict_keys d.
Proof.
  revert d'. induction d as [|[k0 v0] d IH]; simpl; intros d' H.
  - inversion H. reflexivity.
  - destruct (f v0) as [w|] eqn:Hf; simpl in H; [|discriminate].
    destruct (dict_mapM f d) as [r|] eqn:Hr; simpl in H; [|discriminate].
    inversion H; subst. simpl. f_equal. apply IH. reflexivity.
Qed.

Section RollUp.

Variable E : env.

Lemma add_size_spec acc k v acc' :
  add_size E acc (k, v) = Ok acc' ->
  (exists q, machinesize (py_float E) (PyStr v) = Ok q)
  /\ forall t,
      get0 t acc' == get0 t acc + (if String.eqb t k then bytes_of E v else 0)
      /\ (dict_get t acc' = None <-> dict_get t acc = None /\ t <> k).
Proof.
  unfold add_size, bytes_of.
  destruct (machinesize (py_float E) (PyStr v)) as [m|] eqn:Hm; simpl; [|discriminate].
  intros H. inversion H; subst. clear H. split; [eauto|]. intros t.
  unfold get0. destruct (String.eqb_spec t k) as [->|Hne].
  - rewrite dict_get_set_same. split; [reflexivity|].
    split; [discriminate|intros [_ Hk]; congruence].
  - rewrite dict_get_set_other by congruence. split; [lra|].
    split; [auto|intros [? _]; auto].
Qed.

Lemma sum_items_spec d : forall acc acc',
  foldM (add_size E) d acc = Ok acc' ->
  readable E d
  /\ forall t,
      get0 t acc' == get0 t acc + category_of E t d
      /\ (dict_get t acc' = None <-> dict_get t acc = None /\ dict_get t d = None).
Proof.
  induction d as [|[k v] d IH]; cbn [foldM category_of dict_get];
    intros acc acc' H.
  - inversion H; subst. split; [constructor|]. intros t. split; [lra|tauto].
  - destruct (add_size E acc (k, v)) as [acc1|] eqn:H1; cbn [rbind] in H;
      [|discriminate].
    apply add_size_spec in H1 as [Hq H1]. apply IH in H as [Hrd H].
    split; [constructor; auto|]. intros t.
    destruct (H t) as [Hv Hn]. destruct (H1 t) as [Hv1 Hn1]. split.
    + rewrite Hv, Hv1. ring.
    + rewrite Hn, Hn1. destruct (String.eqb_spec t k) as [->|Hne].
      * split; [intros [[_ Hk] _]; congruence|intros [_ Hk]; discriminate].
      * tauto.
Qed.

Lemma sum_sizes_from sizes : forall acc acc',
  foldM (fun children_size d => foldM (add_size E) d children_size) sizes acc
  = Ok acc' ->
  Forall (readable E) sizes
  /\ forall t,
      get0 t acc' == get0 t acc + category_total E t sizes
      /\ (dict_get t acc' = None
          <-> dict_get t acc = None /\ Forall (fun d => dict_get t d = None) sizes).
Proof.
  induction sizes as [|d sizes IH]; simpl; intros acc acc' H.
  - inversion H; subst. split; [constructor|]. intros t. split; [lra|].
    split; [auto|tauto].
  - destruct (foldM (add_size E) d acc) as [acc1|] eqn:H1; simpl in H; [|discriminate].
    apply sum_items_spec in H1 as [Hrd1 H1]. apply IH in H as [Hrd H].
    split; [constructor; auto|]. intros t.
    destruct (H t) as [Hv Hn]. destruct (H1 t) as [Hv1 Hn1]. split.
    + rewrite Hv, Hv1. ring.
    + rewrite Hn, Hn1. split.
      * intros [[Ha Hd] Hf]. auto.
      * intros [Ha Hf]. inversion Hf; subst. auto.
Qed.

(** The roll-up renders, category by category, the sum over the children;
    a category is present as soon as one child has it. *)
Lemma rollup_spec sizes new_size :
  rollup E sizes = Ok new_size ->
  Forall (readable E) sizes
  /\ forall t,
      match dict_get t new_size with
      | Some rendered =>
          exists q, q == category_total E t sizes
                    /\ naturalsize E (PyNum q) = Ok rendered
      | None => Forall (fun d => dict_get t d = None) sizes
      end.
Proof.
  unfold rollup, sum_sizes, humanize_sizes. intros H.
  destruct (foldM (fun children_size d => foldM (add_size E) d children_size)
              sizes []) as [total|] eqn:Hsum; simpl in H; [|discriminate].
  apply sum_sizes_from in Hsum as [Hrd Hsum]. split; [exact Hrd|]. intros t.
  destruct (Hsum t) as [Hv Hn].
  pose proof (dict_get_mapM _ _ _ t H) as Hget.
  unfold get0 in Hv. destruct (dict_get t total) as [q|] eqn:Hq.
  - destruct Hget as (w & Hw & ->). exists q. split; auto.
    rewrite Hv. simpl. ring.
  - rewrite Hget. apply Hn. reflexivity.
Qed.

End RollUp.

Section ChildrenAndSizes.

Local Open Scope nat_scope.

Variable E : env.

Lemma fs_extract_dict_fields nodepath r n :
  fs_extract_dict E nodepath r = Ok n ->
  Node.path n = nodepath /\ Node.repo n = repo_path r /\ Node.nodes n = None.
Proof.
  unfold fs_extract_dict. intros H.
  destruct (FsModel.size E nodepath r); simpl in H; [|discriminate].
  destruct (dict_mapM (naturalsize E) a); simpl in H; [|discriminate].
  destruct (FsModel.date E nodepath); simpl in H; [|discriminate].
  destruct (FsModel.type_ E nodepath); simpl in H; [|discriminate].
  inversion H; subst. auto.
Qed.

Lemma child_of_path path r recursive names h c :
  child_of E path r recursive names h c ->
  exists n, In n names
            /\ Node.path (read h c) = opj path n
            /\ ignored E (opj path n) true = Ok false.
Proof.
  intros (n & rec0 & Hin & Hig & Hex & Hrd). exists n.
  apply fs_extract_dict_fields in Hex as (Hp & _).
  repeat split; auto.
  destruct Hrd as [->|(_ & sz & ->)]; auto.
Qed.

(** C1: after [fs_traverse] on a directory the size of the returned record
    is, category by category, the rendering of the sum of the sizes its
    child entries carry in the final store (so after the recursive updates),
    a category missing from a child counting as zero; every child size is
    readable by [machinesize], and a category no child has is absent. *)
Theorem fs_traverse_size_is_sum_of_children
  fuel path r parent render recursive json s fs s' :
  isdir E path = true ->
  (forall p, parent = Some p -> p < List.length (store s)) ->
  fs_traverse E fuel path r parent render recursive json s = Returns fs s' ->
  exists names cs,
    listdir E path = Ok names
    /\ Node.nodes (read (store s') fs) = Some (S fs :: opt_list parent ++ cs)
    /\ Forall (child_of E path r recursive names (store s')) cs
    /\ Forall (readable E) (sizes_of (store s') cs)
    /\ forall t,
        match dict_get t (Node.size (read (store s') fs)) with
        | Some rendered =>
            exists q, (q == category_total E t (sizes_of (store s') cs))%Q
                      /\ naturalsize E (PyNum q) = Ok rendered
        | None => Forall (fun d => dict_get t d = None) (sizes_of (store s') cs)
        end.
Proof.
  intros Hdir Hvalid H.
  apply fs_traverse_dir_result in H; auto.
  destruct H as (names & n0 & cs & new_size & -> & Hn0 & Hls & Hfs & Hself
                 & Hroll & Hnd & Hcs & Hpar & Hold).
  apply rollup_spec in Hroll as [Hrd Hroll].
  exists names, cs. rewrite Hfs. simpl. repeat split; auto.
  eapply Forall_impl; [|exact Hcs]. intros c [_ Hc]. exact Hc.
Qed.

(** C4: [fs_traverse] on a directory that lists no entry returns a record
    whose size mapping has no category at all, and whose children are the
    self entry, named ["."], followed by the parent when one is given. *)
Theorem fs_traverse_empty_directory
  fuel path r parent render recursive json s fs s' :
  isdir E path = true ->
  listdir E path = Ok [] ->
  (forall p, parent = Some p -> p < List.length (store s)) ->
  fs_traverse E fuel path r parent render recursive json s = Returns fs s' ->
  Node.size (read (store s') fs) = []
  /\ Node.nodes (read (store s') fs) = Some (S fs :: opt_list parent)
  /\ Node.name (read (store s') (S fs)) = ".".
Proof.
  intros Hdir Hempty Hvalid H.
  apply fs_traverse_dir_result in H; auto.
  destruct H as (names & n0 & cs & new_size & -> & Hn0 & Hls & Hfs & Hself
                 & Hroll & Hnd & Hcs & Hpar & Hold).
  assert (names = []) by congruence. subst names.
  assert (cs = []).
  { destruct cs as [|c cs]; auto. inversion Hcs as [|? ? [_ Hc] _]; subst.
    destruct Hc as (n & ? & [] & _). }
  subst cs. simpl in Hroll. inversion Hroll; subst.
  rewrite Hfs, Hself, app_nil_r. auto.
Qed.

(** C5: every child entry of a traversed directory, apart from the ["."] and
    [".."] entries, is the record of a listed name whose leaf name neither
    starts with a dot nor is ["index.html"] (the filter is
    [ignored(path, only_hidden=True)], so directories holding a [.git] stay
    among the children). *)
Theorem fs_traverse_children_not_hidden
  fuel path r parent render recursive json s fs s' :
  isdir E path = true ->
  (forall p, parent = Some p -> p < List.length (store s)) ->
  fs_traverse E fuel path r parent render recursive json s = Returns fs s' ->
  exists names cs,
    listdir E path = Ok names
    /\ Node.nodes (read (store s') fs) = Some (S fs :: opt_list parent ++ cs)
    /\ Forall (fun c =>
         exists n first rest,
           In n names
           /\ Node.path (read (store s') c) = opj path n
           /\ ignored E (opj path n) true = Ok false
           /\ leaf_name E (opj path n) = String first rest
           /\ first <> dot
           /\ leaf_name E (opj path n) <> "index.html") cs.
Proof.
  intros Hdir Hvalid H.
  apply fs_traverse_dir_result in H; auto.
  destruct H as (names & n0 & cs & new_size & -> & Hn0 & Hls & Hfs & Hself
                 & Hroll & Hnd & Hcs & Hpar & Hold).
  exists names, cs. rewrite Hfs. simpl. repeat split; auto.
  eapply Forall_impl; [|exact Hcs]. intros c [_ Hc].
  apply child_of_path in Hc as (n & Hin & Hp & Hig).
  pose proof Hig as Hig'. unfold ignored in Hig'.
  rewrite andb_false_r in Hig'.
  destruct (leaf_name E (opj path n)) as [|first rest] eqn:Hleaf; [discriminate|].
  assert (Hb : Ascii.eqb dot first || String.eqb (String first rest) "index.html"
               = false) by congruence.
  apply orb_false_iff in Hb as [Hd Hi].
  exists n, first, rest. repeat split; auto.
  - apply Ascii.eqb_neq in Hd. congruence.
  - intros Heq. rewrite Hleaf in Heq. rewrite Heq in Hi. discriminate.
Qed.

(** C10: given a parent record, [fs_traverse] on a directory inserts that
    very record as the second child, after the self entry named ["."], and
    sets its name to [".."]; every other record that existed is unchanged,
    and the returned record, the self entry and the remaining children are
    new records, pairwise distinct. *)
Theorem fs_traverse_parent_entry
  fuel path r p render recursive json s fs s' :
  isdir E path = true ->
  p < List.length (store s) ->
  fs_traverse E fuel path r (Some p) render recursive json s = Returns fs s' ->
  exists cs,
    Node.nodes (read (store s') fs) = Some (S fs :: p :: cs)
    /\ Node.name (read (store s') (S fs)) = "."
    /\ read (store s') p = Node.set_name ".." (read (store s) p)
    /\ (forall x, x < List.length (store s) -> x <> p ->
                  read (store s') x = read (store s) x)
    /\ NoDup (fs :: S fs :: p :: cs)
    /\ Forall (fun c => List.length (store s) <= c < List.length (store s'))
              (fs :: S fs :: cs).
Proof.
  intros Hdir Hvalid H.
  pose proof (dir_store_length _ _ _ _ _ _ _ _
                (fs_traverse_dir_store _ _ _ _ _ _ _ _ _ _ _ Hdir H)) as Hlen.
  apply fs_traverse_dir_result in H;
    [|assumption|intros p' Hp'; inversion Hp'; subst; assumption].
  destruct H as (names & n0 & cs & new_size & Heq & Hn0 & Hls & Hfs & Hself
                 & Hroll & Hnd & Hcs & Hpar & Hold).
  exists cs. rewrite Hfs, Hself. simpl.
  rewrite Forall_forall in Hcs.
  repeat split; auto.
  - intros x Hx Hne. apply Hold; auto. congruence.
  - constructor.
    { simpl. intros [Hc|[Hc|Hc]]; try lia. destruct (Hcs _ Hc). lia. }
    constructor.
    { simpl. intros [Hc|Hc]; try lia. destruct (Hcs _ Hc). lia. }
    constructor; auto.
    intros Hc. destruct (Hcs _ Hc). lia.
  - constructor; [lia|]. constructor; [lia|].
    apply Forall_forall. intros c Hc. destruct (Hcs _ Hc). lia.
Qed.

End ChildrenAndSizes.

Section RecursionAndDatasets.

Local Open Scope nat_scope.

Variable E : env.



Lemma modify_returns l f s u s' :
  modify l f s = Returns u s' ->
  store s' = update l f (store s) /\ trace s' = trace s.
Proof. unfold modify. intros H. inversion H. auto. Qed.

Lemma ds_traverse_unfold fuel rootds parent json recursive all :
  _ds_traverse E fuel rootds parent json recursive all
  = ds_traverse_body E
      (fun subds root =>
         match fuel with
         | O => out_of_fuel
         | S fuel' => _ds_traverse E fuel' subds (Some root) json recursive false
         end)
      fuel rootds parent json recursive all.
Proof. destruct fuel; reflexivity. Qed.

End RecursionAndDatasets.

(** ** The entries of a directory, one by one *)

Section Entries.

Local Open Scope nat_scope.

Variable E : env.



Variable traverse : string -> loc -> M loc.
Hypothesis traverse_fresh :
  forall nodepath p s l s',
    traverse nodepath p s = Returns l s' -> fresh_result (Some p) s l s'.




End Entries.

Section EntryRecords.

Local Open Scope nat_scope.

Variable E : env.


Lemma set_size_same n : Node.set_size (Node.size n) n = n.
Proof. destruct n; reflexivity. Qed.







End EntryRecords.

(** ** The two modes of the tree walker, and datasets without [all] *)

Section ModesAndDatasets.

Local Open Scope nat_scope.

Variable E : env.





End ModesAndDatasets.

Section LinksAndListing.

Local Open Scope nat_scope.

Variable E : env.

Lemma fs_extract_ok nodepath r n s :
  fs_extract_dict E nodepath r = Ok n ->
  fs_extract E nodepath r s
  = Returns (List.length (store s))
      {| store := store s ++ [n]; trace := trace s |}.
Proof. intros H. unfold fs_extract, bind, lift. rewrite H. reflexivity. Qed.

Section BrokenLink.

Variables (p target : string) (r : repo).
Hypothesis p_is_link : islink E p = true.
Hypothesis p_target : readlink E p = Ok target.
Hypothesis target_missing :
  path_exists E (if isabs target then target else opj (dirname p) target) = false.


Hypothesis not_annexed : is_annex r = false \/ is_under_annex r p = Ok false.
Hypothesis not_root : repo_path r <> p.


Variables (st : stat_result) (z : string).
Hypothesis link_stat : lstat E p = Ok st.
Hypothesis zero_renders : naturalsize E zero = Ok z.


End BrokenLink.


Section ListingFacts.

Variable F : LsFormatter.t.

Lemma format_exc_ok dsms ds m :
  format E F (format_exc E dsms) ds (Some m) = Ok (error_marker E F dsms ds m).
Proof. reflexivity. Qed.

Lemma format_ds_model_ok dsms ds fast all :
  exists line,
    format_ds_model E F ds (full_fmt E dsms fast all) (format_exc E dsms) = Ok line
    /\ (path_exists E (model_path ds) = true ->
        model_repo ds <> None ->
        match format E F (full_fmt E dsms fast all) ds None with
        | Ok text => line = text
        | Raise exc => line = error_marker E F dsms ds (exc_str E exc)
        end)
    /\ (path_exists E (model_path ds) = false \/ model_repo ds = None ->
        line = error_marker E F dsms ds "not installed").
Proof.
  unfold format_ds_model.
  set (attempt := format E F (full_fmt E dsms fast all) ds None).
  destruct (path_exists E (model_path ds)) eqn:Hex; cbn [negb orb].
  - destruct (model_repo ds) as [r|] eqn:Hr.
    + destruct attempt as [text|exc].
      * exists text. split; [reflexivity|]. split; [auto|].
        intros [?|?]; discriminate.
      * rewrite format_exc_ok. eexists. split; [reflexivity|]. split; [auto|].
        intros [?|?]; discriminate.
    + rewrite format_exc_ok. eexists. split; [reflexivity|]. split; [|auto].
      intros _ Hn. congruence.
  - rewrite format_exc_ok. eexists. split; [reflexivity|]. split; [|auto].
    intros Hn. discriminate.
Qed.

Lemma print_models_ok all_dsms fast all dsms :
  exists lines,
    print_models E F all_dsms dsms fast all = Ok lines
    /\ Forall2 (fun ds line =>
         format_ds_model E F ds (full_fmt E all_dsms fast all)
           (format_exc E all_dsms) = Ok line) dsms lines.
Proof.
  induction dsms as [|ds dsms (lines & Hl & Hf)]; cbn [print_models].
  - exists []. split; auto.
  - destruct (format_ds_model_ok all_dsms ds fast all) as (line & Hline & _).
    rewrite Hline, Hl. cbn [rbind]. exists (line :: lines). split; auto.
Qed.

(** C9: [_ls_dataset] prints one line per dataset model whatever happens
    while an entry is formatted: the line of an installed entry whose
    formatting raises is the error marker made of its path and the message
    of the exception, the line of an entry that is not installed is the
    marker with ["not installed"], and the other lines are the formatted
    entries. *)
Theorem ls_dataset_error_marker dsms fast all :
  dsms <> [] ->
  exists lines,
    _ls_dataset E F dsms fast all = Ok lines
    /\ Forall2 (fun ds line =>
         (path_exists E (model_path ds) = true ->
          model_repo ds <> None ->
          match format E F (full_fmt E dsms fast all) ds None with
          | Ok text => line = text
          | Raise exc => line = error_marker E F dsms ds (exc_str E exc)
          end)
         /\ (path_exists E (model_path ds) = false \/ model_repo ds = None ->
             line = error_marker E F dsms ds "not installed")) dsms lines.
Proof.
  intros Hne.
  destruct (print_models_ok dsms fast all dsms) as (lines & Hl & Hf).
  exists lines. split.
  - unfold _ls_dataset. destruct dsms; [congruence|exact Hl].
  - eapply Forall2_impl; [|exact Hf]. intros ds line Hline.
    destruct (format_ds_model_ok dsms ds fast all) as (line' & Hline' & H1 & H2).
    assert (line' = line) by congruence. subst. auto.
Qed.

End ListingFacts.

End LinksAndListing.

(** ** Names and the node inspector *)

Lemma path_cut_tail_no_slash p : contains_char slash (snd (path_cut p)) = false.
Proof.
  induction p as [|a p IH]; simpl; auto.
  destruct (path_cut p) as [h t]. simpl in IH.
  destruct (String.eqb h ""); simpl.
  - destruct (Ascii.eqb a slash) eqn:Ha; simpl; auto. rewrite Ha. auto.
  - auto.
Qed.

Section NamesFacts.

Variable E : env.

(** X1: the name [leaf_name] returns holds no slash, whatever the path
    and whatever [abspath] makes of it. *)
Theorem leaf_name_has_no_slash path :
  contains_char slash (leaf_name E path) = false.
Proof.
  unfold leaf_name, path_split.
  pose proof (path_cut_tail_no_slash (abspath E path)) as Ht.
  destruct (path_cut (abspath E path)) as [h t]. simpl in Ht.
  destruct (truthy t); auto. apply path_cut_tail_no_slash.
Qed.

(** X2: the filter [ignored].  An entry the hidden-only filter rejects is
    rejected by the full filter too; a directory that holds [.git] (or
    [.git/annex]) is rejected by the full filter; the hidden-only filter
    rejects exactly the names that start with a dot and [index.html]; and it
    raises [IndexError] exactly when the leaf name is empty. *)
Theorem ignored_hidden_and_repositories path :
  (ignored E path true = Ok true -> ignored E path false = Ok true)
  /\ (isdir E (opj path ".git") = true
      \/ isdir E (opj (opj path ".git") "annex") = true ->
      ignored E path false = Ok true)
  /\ (ignored E path true = Ok true <->
      exists first rest,
        leaf_name E path = String first rest
        /\ (first = dot \/ leaf_name E path = "index.html"))
  /\ (ignored E path true = Raise IndexError <-> leaf_name E path = "").
Proof.
  unfold ignored. rewrite andb_false_r, andb_true_r.
  repeat split.
  - destruct (isdir E _ || isdir E _); auto.
  - intros [H|H]; rewrite H; simpl; auto. rewrite orb_true_r. reflexivity.
  - destruct (leaf_name E path) as [|c rest]; [discriminate|].
    intros H. assert (Hb : Ascii.eqb dot c || String.eqb (String c rest) "index.html"
                           = true) by congruence.
    exists c, rest. split; auto. apply orb_true_iff in Hb as [Hb|Hb].
    + left. apply Ascii.eqb_eq in Hb. auto.
    + right. apply String.eqb_eq in Hb. auto.
  - intros (first & rest & Hl & H). rewrite Hl. f_equal.
    destruct H as [->|H].
    + unfold dot. rewrite Ascii.eqb_refl. reflexivity.
    + rewrite Hl in H. rewrite H. apply orb_true_r.
  - destruct (leaf_name E path); [reflexivity|discriminate].
  - intros ->. reflexivity.
Qed.

End NamesFacts.

Section InspectorFacts.

Variable E : env.

Lemma size_has_five_categories path r sizes :
  FsModel.size E path r = Ok sizes -> dict_keys sizes = five_categories.
Proof.
  unfold FsModel.size. intros H.
  destruct (FsModel.type_ E path) as [t|]; simpl in H; [|discriminate].
  destruct (FsModel.file_like t).
  - destruct (FsModel.file_sizes E path r t) as [[a b]|]; simpl in H; [|discriminate].
    destruct (String.eqb (repo_path r) path).
    + destruct (GitModel.git_local_size r); simpl in H; [|discriminate].
      destruct (AnnexModel.annex_local_size r); simpl in H; [|discriminate].
      destruct (AnnexModel.annex_worktree_size r); simpl in H; [|discriminate].
      inversion H; subst. reflexivity.
    + inversion H; subst. reflexivity.
  - simpl in H. destruct (String.eqb (repo_path r) path).
    + destruct (GitModel.git_local_size r); simpl in H; [|discriminate].
      destruct (AnnexModel.annex_local_size r); simpl in H; [|discriminate].
      destruct (AnnexModel.annex_worktree_size r); simpl in H; [|discriminate].
      inversion H; subst. reflexivity.
    + inversion H; subst. reflexivity.
Qed.

(** X3: a record [fs_extract] builds carries exactly the five size
    categories of [FsModel.size], and each is [naturalsize] of the value
    [FsModel.size] computed for that category. *)
Theorem fs_extract_has_five_categories nodepath r n :
  fs_extract_dict E nodepath r = Ok n ->
  dict_keys (Node.size n) = five_categories
  /\ exists sizes,
      FsModel.size E nodepath r = Ok sizes
      /\ dict_keys sizes = five_categories
      /\ forall t v, dict_get t sizes = Some v ->
           exists rendered, naturalsize E v = Ok rendered
                            /\ dict_get t (Node.size n) = Some rendered.
Proof.
  unfold fs_extract_dict. intros H.
  destruct (FsModel.size E nodepath r) as [sizes|] eqn:Hs; simpl in H; [|discriminate].
  destruct (dict_mapM (naturalsize E) sizes) as [pretty|] eqn:Hp; simpl in H;
    [|discriminate].
  destruct (FsModel.date E nodepath); simpl in H; [|discriminate].
  destruct (FsModel.type_ E nodepath); simpl in H; [|discriminate].
  inversion H; subst. simpl.
  pose proof (size_has_five_categories _ _ _ Hs) as Hk.
  split; [rewrite (dict_mapM_keys _ _ _ Hp); exact Hk|].
  exists sizes. repeat split; auto.
  intros t v Hv. pose proof (dict_get_mapM _ _ _ t Hp) as Hg.
  rewrite Hv in Hg. exact Hg.
Qed.

(** X4: [FsModel.type_] on symbolic links.  A symbolic link is a [link]
    when its target resolves to an existing, non-empty path and a
    [link-broken] otherwise, whatever else the path is; a path that is not a
    symbolic link never raises, is never one of the two link types, and is a
    [file] when [isfile] holds. *)
Theorem type_of_symbolic_links path :
  (islink E path = true ->
   forall t, FsModel.type_ E path = Ok t ->
             (t = Some link /\ exists target, FsModel.symlink E path = Ok (Some target)
                                              /\ target <> "")
             \/ (t = Some link_broken
                 /\ (FsModel.symlink E path = Ok None
                     \/ FsModel.symlink E path = Ok (Some ""))))
  /\ (islink E path = false ->
      exists t, FsModel.type_ E path = Ok t
                /\ t <> Some link /\ t <> Some link_broken
                /\ (isfile E path = true -> t = Some file)).
Proof.
  unfold FsModel.type_. split; intros Hl; rewrite Hl.
  - intros t H.
    destruct (FsModel.symlink E path) as [[target|]|]; simpl in H; try discriminate.
    + destruct target as [|c target]; simpl in H; inversion H; subst.
      * right. auto.
      * left. split; auto. exists (String c target). split; auto. discriminate.
    + inversion H; subst. right. auto.
  - destruct (isfile E path).
    + eexists. repeat split; try discriminate.
    + destruct (path_exists E (opj (opj path ".git") "annex"));
        [eexists; repeat split; discriminate|].
      destruct (path_exists E (opj path ".git"));
        [eexists; repeat split; discriminate|].
      destruct (isdir E path); eexists; repeat split; discriminate.
Qed.

(** X5: the size of a file-like node under annex is what annex reports:
    [total] is the size of the key and [ondisk] is that size when the
    content is present and zero when it is not; the file system is not
    asked. *)
Theorem size_of_annexed_file path r t v has :
  FsModel.type_ E path = Ok t ->
  FsModel.file_like t = true ->
  is_annex r = true ->
  is_under_annex r path = Ok true ->
  info_size r path = Ok v ->
  file_has_content r path = Ok has ->
  repo_path r <> path ->
  FsModel.size E path r
  = Ok [("total", v); ("ondisk", if has then v else zero); ("git", zero);
        ("annex", zero); ("annex_worktree", zero)].
Proof.
  intros Ht Hf Ha Hu Hi Hc Hne. unfold FsModel.size, FsModel.file_sizes.
  rewrite Ht. simpl. rewrite Hf, Ha, Hu. simpl. rewrite Hi. simpl. rewrite Hc. simpl.
  destruct (String.eqb_spec (repo_path r) path); [contradiction|]. reflexivity.
Qed.

(** X6: a symbolic link whose target exists (outside annex) has type
    [link] and the size of [lstat] of the resolved target, not of the link
    itself. *)
Theorem size_of_valid_link path r target st :
  islink E path = true ->
  readlink E path = Ok target ->
  path_exists E (if isabs target then target else opj (dirname path) target) = true ->
  (if isabs target then target else opj (dirname path) target) <> "" ->
  is_annex r = false \/ is_under_annex r path = Ok false ->
  lstat E (if isabs target then target else opj (dirname path) target) = Ok st ->
  repo_path r <> path ->
  FsModel.type_ E path = Ok (Some link)
  /\ FsModel.size E path r
     = Ok [("total", PyNum (inject_Z (st_size st)));
           ("ondisk", PyNum (inject_Z (st_size st))); ("git", zero);
           ("annex", zero); ("annex_worktree", zero)].
Proof.
  intros Hl Hr Hex Hne Ha Hst Hroot.
  set (resolved := if isabs target then target else opj (dirname path) target) in *.
  assert (Hsym : FsModel.symlink E path = Ok (Some resolved)).
  { unfold FsModel.symlink. rewrite Hl, Hr. simpl. fold resolved. rewrite Hex.
    reflexivity. }
  assert (Htruthy : truthy resolved = true).
  { unfold truthy. destruct (String.eqb_spec resolved ""); [contradiction|reflexivity]. }
  assert (Ht : FsModel.type_ E path = Ok (Some link)).
  { unfold FsModel.type_. rewrite Hl, Hsym. simpl. rewrite Htruthy. reflexivity. }
  split; [exact Ht|].
  unfold FsModel.size, FsModel.file_sizes, FsModel.symlink_or_path.
  rewrite Ht. simpl.
  assert (Hann : (if is_annex r then is_under_annex r path else Ok false) = Ok false).
  { destruct Ha as [->| ->]; [reflexivity|]. destruct (is_annex r); reflexivity. }
  rewrite Hann. simpl. rewrite Hsym. simpl. rewrite Htruthy, Hst. simpl.
  destruct (String.eqb_spec (repo_path r) path); [contradiction|]. reflexivity.
Qed.

(** X7: at the root of a repository whose [count_objects] and [repo_info]
    are empty, [FsModel.size] puts [None] in the categories [git], [annex]
    and [annex_worktree], and [fs_extract] raises what [naturalsize] raises
    on [None]. *)
Theorem fs_extract_of_root_with_unknown_size path r t z e :
  repo_path r = path ->
  FsModel.type_ E path = Ok t ->
  FsModel.file_like t = false ->
  count_objects r = Ok None ->
  repo_info r = Ok None ->
  naturalsize E zero = Ok z ->
  naturalsize E PyNone = Raise e ->
  FsModel.size E path r
  = Ok [("total", zero); ("ondisk", zero); ("git", PyNone); ("annex", PyNone);
        ("annex_worktree", PyNone)]
  /\ fs_extract_dict E path r = Raise e.
Proof.
  intros Hroot Ht Hf Hc Hi Hz Hn.
  assert (Hs : FsModel.size E path r
               = Ok [("total", zero); ("ondisk", zero); ("git", PyNone);
                     ("annex", PyNone); ("annex_worktree", PyNone)]).
  { unfold FsModel.size. rewrite Ht. simpl. rewrite Hf. simpl.
    rewrite Hroot, String.eqb_refl.
    unfold GitModel.git_local_size, AnnexModel.annex_local_size,
      AnnexModel.annex_worktree_size. rewrite Hc, Hi. reflexivity. }
  split; [exact Hs|]. unfold fs_extract_dict. rewrite Hs. simpl.
  rewrite Hz. simpl. rewrite Hn. reflexivity.
Qed.

End InspectorFacts.

(** ** The size converter *)

Section ConverterFacts.

Variable py_float : string -> option Q.

Lemma machinesize_of_number_unit n u x k :
  py_float n = Some x ->
  contains_char space n = false ->
  dict_get u unit_converter = Some k ->
  machinesize py_float (PyStr (n ++ String space u)) = Ok (x * inject_Z (1024 ^ k)).
Proof.
  intros Hf Hn Hu. unfold machinesize.
  assert (Hs : split space (n ++ String space u)%string = [n; u]).
  { apply split_two. repeat split; auto. eapply unit_has_no_space; eauto. }
  rewrite Hs, Hf, Hu. reflexivity.
Qed.

(** X8: in [machinesize] each unit of the ladder is worth 1024 times the
    unit before it, and [Bytes] is worth one. *)
Theorem machinesize_unit_step n u u' x k :
  py_float n = Some x ->
  contains_char space n = false ->
  dict_get u unit_converter = Some k ->
  dict_get u' unit_converter = Some (k + 1)%Z ->
  exists m m',
    machinesize py_float (PyStr (n ++ String space u)) = Ok m
    /\ machinesize py_float (PyStr (n ++ String space u')) = Ok m'
    /\ m' == 1024 * m
    /\ (u = "Bytes" -> m = x * 1).
Proof.
  intros Hf Hn Hu Hu'.
  exists (x * inject_Z (1024 ^ k)), (x * inject_Z (1024 ^ (k + 1))).
  split; [apply machinesize_of_number_unit; auto|].
  split; [apply machinesize_of_number_unit; auto|].
  assert (Hk : (0 <= k)%Z).
  { revert Hu. unfold unit_converter. simpl.
    repeat match goal with
           | |- context [String.eqb u ?k'] => destruct (String.eqb u k')
           end; intros H; inversion H; lia. }
  split.
  - rewrite Z.pow_add_r by lia. change (1024 ^ 1)%Z with 1024%Z.
    rewrite inject_Z_mult. change (inject_Z 1024) with 1024. ring.
  - intros ->. simpl in Hu. inversion Hu. reflexivity.
Qed.

(** X9: the errors of [machinesize].  A string without a space and a
    string of three parts raise [ValueError]; [KeyError] is raised exactly
    for a number [float()] accepts followed by a word that is no unit; and
    [None] raises [TypeError]. *)
Theorem machinesize_errors :
  (forall s, contains_char space s = false ->
             machinesize py_float (PyStr s) = Raise ValueError)
  /\ (forall a b c,
         machinesize py_float (PyStr (a ++ String space (b ++ String space c)))
         = Raise ValueError)
  /\ (forall s,
         machinesize py_float (PyStr s) = Raise KeyError <->
         exists n u x,
           s = (n ++ String space u)%string
           /\ contains_char space n = false /\ contains_char space u = false
           /\ py_float n = Some x
           /\ dict_get u unit_converter = None)
  /\ machinesize py_float PyNone = Raise TypeError.
Proof.
  repeat split.
  - intros s Hs. unfold machinesize. rewrite split_no_sep by assumption. reflexivity.
  - intros a b c. unfold machinesize.
    destruct (split space (a ++ String space (b ++ String space c))%string)
      as [|p [|q [|w rest]]] eqn:Hs; auto.
    exfalso. apply split_two in Hs as (Heq & Hp & Hq).
    assert (Hlen : forall (x y : string) d,
               (x ++ String space y)%string = (p ++ String space d)%string ->
               contains_char space p = false ->
               contains_char space d = false ->
               contains_char space y = false).
    { clear. intros x. revert p. induction x as [|cx x IH]; intros p y d H Hp Hd.
      - destruct p as [|cp p]; simpl in *.
        + inversion H; subst. assumption.
        + inversion H; subst. simpl in Hp. discriminate.
      - destruct p as [|cp p]; simpl in *.
        + inversion H; subst. clear -Hd.
          induction x; simpl in *; [discriminate|].
          apply orb_false_iff in Hd as [_ Hd]. auto.
        + inversion H; subst. apply orb_false_iff in Hp as [_ Hp]. eauto. }
    specialize (Hlen a (b ++ String space c)%string q Heq Hp Hq).
    clear -Hlen. induction b; simpl in *; [discriminate|].
    apply orb_false_iff in Hlen as [_ Hlen]. auto.
  - unfold machinesize.
    destruct (split space s) as [|n [|u [|w rest]]] eqn:Hs; try discriminate.
    destruct (py_float n) as [x|] eqn:Hf; try discriminate.
    destruct (dict_get u unit_converter) as [k|] eqn:Hu; try discriminate.
    intros _. apply split_two in Hs as (-> & Hn & Hb). exists n, u, x. auto.
  - intros (n & u & x & -> & Hn & Hu & Hf & Hk). unfold machinesize.
    assert (Hs : split space (n ++ String space u)%string = [n; u])
      by (apply split_two; auto).
    rewrite Hs, Hf, Hk. reflexivity.
Qed.

End ConverterFacts.

(** ** Rendering and the walker's outside effects *)

Section EffectFacts.

Variable E : env.

Local Open Scope nat_scope.

(** X10: [fs_render] never touches the records.  Without a [json] mode it
    does nothing; in mode [delete] without a sidecar file it does nothing; in
    mode [file] it raises what the write raises, and otherwise dumps the
    document to [.dir.json] under the path. *)
Theorem fs_render_effects path doc s :
  (forall json u s', fs_render E path doc json s = Returns u s' ->
                     store s' = store s)
  /\ fs_render E path doc None s = Returns tt s
  /\ (path_exists E (opj path ".dir.json") = false ->
      fs_render E path doc (Some json_delete) s = Returns tt s)
  /\ (forall e, write_json E (opj path ".dir.json") = Raise e ->
                fs_render E path doc (Some json_file) s = Raises e)
  /\ (write_json E (opj path ".dir.json") = Ok tt ->
      fs_render E path doc (Some json_file) s
      = Returns tt {| store := store s;
                      trace := trace s ++ [Dumped (opj path ".dir.json") doc (store s)] |}).
Proof.
  split; [intros json u s' H; eapply fs_render_store; eauto|].
  split; [reflexivity|].
  split; [intros H; unfold fs_render; rewrite H; reflexivity|].
  split; intros; unfold fs_render, bind, lift; rewrite H; reflexivity.
Qed.

Lemma visit_not_recursive_trace traverse path r children node s children' s' :
  visit E traverse path r false children node s = Returns children' s' ->
  trace s' = trace s.
Proof.
  unfold visit. intros H.
  apply bind_returns in H as (ign & s0 & Hign & H).
  apply lift_returns in Hign as [_ ->].
  apply bind_returns in H as (children1 & s1 & Happ & H).
  apply bind_returns in H as (descend & s2 & Hd & H).
  apply ret_returns in Hd as [-> ->]. apply ret_returns in H as [-> ->].
  destruct ign; simpl in Happ.
  - apply ret_returns in Happ as [_ ->]. reflexivity.
  - apply bind_returns in Happ as (c & s3 & Hex & Hret).
    apply ret_returns in Hret as [_ ->].
    apply fs_extract_returns in Hex as (n & _ & _ & _ & Ht). exact Ht.
Qed.

(** X11: a traversal that neither renders nor recurses has no effect
    outside the store, whatever [json] mode it is given. *)
Theorem fs_traverse_quiet fuel path r parent json s fs s' :
  fs_traverse E fuel path r parent false false json s = Returns fs s' ->
  trace s' = trace s.
Proof.
  rewrite fs_traverse_unfold. unfold fs_traverse_body. intros H.
  apply bind_returns in H as (fs0 & s1 & Hex & H).
  apply fs_extract_returns in Hex as (n0 & _ & _ & _ & Ht1).
  destruct (isdir E path).
  - apply bind_returns in H as (self & s2 & Hex' & H).
    apply fs_extract_returns in Hex' as (n1 & _ & _ & _ & Ht2).
    apply bind_returns in H as (names & s2' & Hls & H).
    apply lift_returns in Hls as [_ ->].
    apply bind_returns in H as (children & s3 & Hloop & H).
    assert (Ht3 : trace s3 = trace s2).
    { eapply (for_each_invariant (fun _ st => trace st = trace s2));
        [| |exact Hloop]; [|reflexivity].
      intros acc x sa acc' sa' _ Hi Hv.
      apply visit_not_recursive_trace in Hv. congruence. }
    apply bind_returns in H as (new_size & s3' & Hsum & H).
    apply lift_returns in Hsum as [_ ->].
    apply bind_returns in H as (u1 & s4 & Hm1 & H).
    apply modify_returns in Hm1 as [_ Ht4].
    apply bind_returns in H as (u2 & s5 & Hm2 & H).
    apply modify_returns in Hm2 as [_ Ht5].
    apply bind_returns in H as (u3 & s6 & Hm3 & H).
    apply modify_returns in Hm3 as [_ Ht6].
    apply bind_returns in H as (children' & s7 & Hpar & H).
    assert (Ht7 : trace s7 = trace s6).
    { destruct parent as [p|].
      - apply bind_returns in Hpar as (u & sa & Hm & Hret).
        apply ret_returns in Hret as [_ ->].
        apply modify_returns in Hm as [_ Hm]. exact Hm.
      - apply ret_returns in Hpar as [_ ->]. reflexivity. }
    apply bind_returns in H as (u4 & s8 & Hm4 & H).
    apply modify_returns in Hm4 as [_ Ht8].
    apply bind_returns in H as (u5 & s9 & Hren & H).
    apply ret_returns in Hren as [_ ->]. apply ret_returns in H as [_ ->].
    congruence.
  - apply ret_returns in H as [_ ->]. congruence.
Qed.

(** X12: on a path that is not a directory [fs_traverse] is [fs_extract]:
    it adds the one record and nothing else, whatever the fuel, the parent
    and the flags; in particular the parent is not renamed and nothing is
    rendered. *)
Theorem fs_traverse_of_a_non_directory fuel path r parent render recursive json s n :
  isdir E path = false ->
  fs_extract_dict E path r = Ok n ->
  fs_traverse E fuel path r parent render recursive json s
  = Returns (List.length (store s))
      {| store := store s ++ [n]; trace := trace s |}.
Proof.
  intros Hdir Hex. rewrite fs_traverse_unfold. unfold fs_traverse_body, bind.
  rewrite (fs_extract_ok E _ _ _ s Hex), Hdir. reflexivity.
Qed.



End EffectFacts.

(** ** The categories of a rolled-up size *)

(** ** Keys of the roll-up *)

Lemma dict_set_keys_present {V} k (v : V) d :
  In k (dict_keys d) -> dict_keys (dict_set k v d) = dict_keys d.
Proof.
  induction d as [|[k0 v0] d IH]; simpl; intros H; [contradiction|].
  destruct (String.eqb_spec k k0) as [->|Hne]; simpl; auto.
  f_equal. apply IH. destruct H; congruence.
Qed.

Lemma dict_set_keys_absent {V} k (v : V) d :
  ~ In k (dict_keys d) -> dict_keys (dict_set k v d) = dict_keys d ++ [k].
Proof.
  induction d as [|[k0 v0] d IH]; simpl; intros H; auto.
  destruct (String.eqb_spec k k0) as [->|Hne]; simpl.
  - exfalso. auto.
  - f_equal. apply IH. auto.
Qed.

Section RollUpKeys.

Variable E : env.

Lemma add_size_keys acc k v acc' :
  add_size E acc (k, v) = Ok acc' ->
  dict_keys acc' = if in_dec string_dec k (dict_keys acc)
                   then dict_keys acc else dict_keys acc ++ [k].
Proof.
  unfold add_size.
  destruct (machinesize (py_float E) (PyStr v)); simpl; [|discriminate].
  intros H. inversion H; subst.
  destruct (in_dec string_dec k (dict_keys acc)).
  - apply dict_set_keys_present. assumption.
  - apply dict_set_keys_absent. assumption.
Qed.

Lemma add_items_keys_new d : forall acc acc',
  NoDup (dict_keys acc ++ dict_keys d) ->
  foldM (add_size E) d acc = Ok acc' ->
  dict_keys acc' = dict_keys acc ++ dict_keys d.
Proof.
  induction d as [|[k v] d IH]; cbn [foldM dict_keys map fst]; intros acc acc' Hnd H.
  - inversion H. rewrite app_nil_r. reflexivity.
  - destruct (add_size E acc (k, v)) as [acc1|] eqn:H1; cbn [rbind] in H; [|discriminate].
    apply add_size_keys in H1.
    destruct (in_dec string_dec k (dict_keys acc)) as [Hin|Hnin].
    + exfalso. apply NoDup_remove_2 in Hnd. apply Hnd.
      apply in_or_app. left. exact Hin.
    + apply IH in H.
      * rewrite H, H1, <- app_assoc. reflexivity.
      * unfold dict_keys in *. rewrite H1, <- app_assoc. exact Hnd.
Qed.

Lemma add_items_keys_old d : forall acc acc',
  incl (dict_keys d) (dict_keys acc) ->
  foldM (add_size E) d acc = Ok acc' ->
  dict_keys acc' = dict_keys acc.
Proof.
  induction d as [|[k v] d IH]; cbn [foldM dict_keys map fst]; intros acc acc' Hin H.
  - inversion H. reflexivity.
  - destruct (add_size E acc (k, v)) as [acc1|] eqn:H1; cbn [rbind] in H; [|discriminate].
    apply add_size_keys in H1.
    destruct (in_dec string_dec k (dict_keys acc)) as [Hk|Hk].
    + apply IH in H; [congruence|]. rewrite H1.
      intros x Hx. apply Hin. right. exact Hx.
    + exfalso. apply Hk. apply Hin. left. reflexivity.
Qed.

Lemma sum_sizes_same_keys K sizes : forall acc acc',
  dict_keys acc = K ->
  Forall (fun d => dict_keys d = K) sizes ->
  foldM (fun children_size d => foldM (add_size E) d children_size) sizes acc = Ok acc' ->
  dict_keys acc' = K.
Proof.
  induction sizes as [|d sizes IH]; cbn [foldM]; intros acc acc' Hk Hall H.
  - inversion H; subst. reflexivity.
  - destruct (foldM (add_size E) d acc) as [acc1|] eqn:H1; cbn [rbind] in H;
      [|discriminate].
    pose proof (Forall_inv Hall) as Hd. pose proof (Forall_inv_tail Hall) as Hrest.
    simpl in Hd.
    apply add_items_keys_old in H1; [|rewrite Hd, Hk; apply incl_refl].
    eapply IH; [|exact Hrest|exact H]. congruence.
Qed.

Lemma rollup_keys K d sizes new_size :
  NoDup K ->
  Forall (fun d => dict_keys d = K) (d :: sizes) ->
  rollup E (d :: sizes) = Ok new_size ->
  dict_keys new_size = K.
Proof.
  intros Hnd Hall. unfold rollup, sum_sizes, humanize_sizes. cbn [foldM].
  destruct (foldM (add_size E) d []) as [acc1|] eqn:H1; cbn [rbind]; [|discriminate].
  destruct (foldM (fun children_size d0 => foldM (add_size E) d0 children_size)
              sizes acc1) as [total|] eqn:H2; cbn [rbind]; [|discriminate].
  intros H.
  pose proof (Forall_inv Hall) as Hd. pose proof (Forall_inv_tail Hall) as Hrest.
  simpl in Hd.
  apply add_items_keys_new in H1; [|simpl; rewrite Hd; exact Hnd].
  simpl in H1. rewrite Hd in H1.
  eapply sum_sizes_same_keys in H2; eauto.
  rewrite (dict_mapM_keys _ _ _ H). exact H2.
Qed.

Lemma fs_extract_dict_keys nodepath r n :
  fs_extract_dict E nodepath r = Ok n -> dict_keys (Node.size n) = five_categories.
Proof.
  unfold fs_extract_dict. intros H.
  destruct (FsModel.size E nodepath r) as [sizes|] eqn:Hs; simpl in H; [|discriminate].
  destruct (dict_mapM (naturalsize E) sizes) as [pretty|] eqn:Hp; simpl in H;
    [|discriminate].
  destruct (FsModel.date E nodepath); simpl in H; [|discriminate].
  destruct (FsModel.type_ E nodepath); simpl in H; [|discriminate].
  inversion H; subst. simpl.
  rewrite (dict_mapM_keys _ _ _ Hp). eapply size_has_five_categories; eauto.
Qed.

Local Open Scope nat_scope.

(** X14: after a non-recursive traversal of a directory with at least one
    child entry, the size of the directory and of its [.] entry carry
    exactly the five categories of [FsModel.size]. *)
Theorem fs_traverse_not_recursive_has_five_categories
  fuel path r parent render json s fs s' :
  isdir E path = true ->
  (forall p, parent = Some p -> p < List.length (store s)) ->
  fs_traverse E fuel path r parent render false json s = Returns fs s' ->
  exists cs,
    Node.nodes (read (store s') fs) = Some (S fs :: opt_list parent ++ cs)
    /\ (cs <> [] ->
        dict_keys (Node.size (read (store s') fs)) = five_categories
        /\ dict_keys (Node.size (read (store s') (S fs))) = five_categories).
Proof.
  intros Hdir Hvalid H.
  apply fs_traverse_dir_result in H; auto.
  destruct H as (names & n0 & cs & new_size & -> & Hn0 & Hls & Hfs & Hself
                 & Hroll & Hnd & Hcs & Hpar & Hold).
  exists cs. rewrite Hfs, Hself. simpl. split; [reflexivity|].
  intros Hne.
  assert (Hk : dict_keys new_size = five_categories).
  { destruct cs as [|c cs]; [exfalso; apply Hne; reflexivity|]. simpl in Hroll.
    eapply rollup_keys; [| |exact Hroll].
    - unfold five_categories. repeat constructor; simpl; intuition discriminate.
    - change (Node.size (read (store s') c) :: sizes_of (store s') cs)
        with (sizes_of (store s') (c :: cs)).
      unfold sizes_of. apply Forall_map.
      eapply Forall_impl; [|exact Hcs].
      intros x [_ (n & rec0 & _ & _ & Hex & Hrd)].
      destruct Hrd as [->|[Hrec _]]; [|discriminate].
      eapply fs_extract_dict_keys; eauto. }
  auto.
Qed.

End RollUpKeys.

(** ** The dataset walker and its sub-datasets *)




Section DatasetWalkerFacts.

Variable E : env.

Local Open Scope nat_scope.




(** The pieces of a run of the dataset walker. *)
Lemma ds_traverse_body_returns traverse fuel rootds parent json recursive all s fs s' :
  ds_traverse_body E traverse fuel rootds parent json recursive all s = Returns fs s' ->
  exists fsparent s1 s2 size_list s3 new_size,
    List.length (store s) <= List.length (store s1)
    /\ fs_traverse E fuel (ds_path rootds) (ds_repo rootds) fsparent false recursive
         json s1 = Returns fs s2
    /\ (if all
        then exists subs,
            get_subdatasets rootds = Ok subs
            /\ for_each subs [Node.size (read (store s2) fs)]
                 (fun size_list subds_path =>
                    let subds := Dataset E (opj (ds_path rootds) subds_path) in
                    subfs <- traverse subds rootds ;;
                    sub <- load subfs ;;
                    ret (size_list ++ [Node.size sub])) s2 = Returns size_list s3
        else size_list = [Node.size (read (store s2) fs)] /\ s3 = s2)
    /\ rollup E size_list = Ok new_size
    /\ store s' = update fs (Node.set_size new_size) (store s3).
Proof.
  unfold ds_traverse_body. intros H.
  apply bind_returns in H as (fsparent & s1 & Hpar & H).
  apply bind_returns in H as (fs0 & s2 & Htr & H).
  apply bind_returns in H as (own & s3 & Hload & H).
  unfold load in Hload. inversion Hload; subst own s3. clear Hload.
  apply bind_returns in H as (size_list & s4 & Hlist & H).
  apply bind_returns in H as (new_size & s5 & Hroll & H).
  apply lift_returns in Hroll as [Hroll ->].
  apply bind_returns in H as (u1 & s6 & Hmod & H).
  apply modify_returns in Hmod as [Hst6 _].
  apply bind_returns in H as (u2 & s7 & Hlog & H).
  unfold emit in Hlog. inversion Hlog; subst s7. clear Hlog.
  apply bind_returns in H as (u3 & s8 & Hrender & H).
  apply fs_render_store in Hrender. simpl in Hrender.
  apply ret_returns in H as [-> ->].
  exists fsparent, s1, s2, size_list, s4, new_size.
  split; [|split; [exact Htr|split; [|split; [exact Hroll|congruence]]]].
  - destruct parent as [p|].
    + apply bind_returns in Hpar as (l & sa & Hex & Hret).
      apply ret_returns in Hret as [_ ->].
      apply fs_extract_returns in Hex as (n & _ & _ & Hst & _).
      rewrite Hst, length_app. lia.
    + apply ret_returns in Hpar as [_ ->]. lia.
  - destruct all.
    + apply bind_returns in Hlist as (subs & sa & Hsubs & Hloop).
      apply lift_returns in Hsubs as [Hsubs ->]. eauto.
    + apply ret_returns in Hlist as [-> ->]. auto.
Qed.

Lemma ds_traverse_flat_length fuel ds parent json recursive s l s' :
  _ds_traverse E fuel ds parent json recursive false s = Returns l s' ->
  List.length (store s) <= List.length (store s') /\ l < List.length (store s').
Proof.
  rewrite ds_traverse_unfold. intros H.
  apply ds_traverse_body_returns in H
    as (fsparent & s1 & s2 & size_list & s3 & new_size & Hlen & Htr & Hl & _ & Hst).
  destruct Hl as [_ ->].
  apply fs_traverse_fresh in Htr as [Hfs [Hle _]].
  rewrite Hst, update_length. lia.
Qed.

Lemma collect_sizes (traverse : dataset -> dataset -> M loc) rootds subs :
  (forall ds root s l s', traverse ds root s = Returns l s' ->
                          List.length (store s) <= List.length (store s')) ->
  forall acc s res s',
    for_each subs acc
      (fun size_list subds_path =>
         let subds := Dataset E (opj (ds_path rootds) subds_path) in
         subfs <- traverse subds rootds ;;
         sub <- load subfs ;;
         ret (size_list ++ [Node.size sub])) s = Returns res s' ->
    List.length (store s) <= List.length (store s')
    /\ exists sizes,
        res = acc ++ sizes
        /\ Forall2 (fun sub sz =>
             exists sa l sb,
               traverse (Dataset E (opj (ds_path rootds) sub)) rootds sa
               = Returns l sb
               /\ sz = Node.size (read (store sb) l)) subs sizes.
Proof.
  intros Hmono. induction subs as [|sub subs IH]; simpl; intros acc s res s' H.
  - apply ret_returns in H as [-> ->]. split; [lia|].
    exists []. rewrite app_nil_r. split; auto.
  - apply bind_returns in H as (acc1 & s1 & Hstep & H).
    apply bind_returns in Hstep as (subfs & s2 & Htr & Hstep).
    apply bind_returns in Hstep as (sub_rec & s3 & Hload & Hret).
    unfold load in Hload. inversion Hload; subst sub_rec s3. clear Hload.
    apply ret_returns in Hret as [-> ->].
    apply IH in H as [Hlen (sizes & -> & Hall)].
    pose proof (Hmono _ _ _ _ _ Htr) as Hlen1.
    split; [lia|].
    exists (Node.size (read (store s2) subfs) :: sizes).
    rewrite <- app_assoc. split; [reflexivity|].
    constructor; [|exact Hall]. eauto.
Qed.

(** X16: with [all], the size [_ds_traverse] reports is the roll-up of
    the size of the dataset's own tree followed by the sizes the
    sub-datasets report, each walked without [all] and with the dataset as
    parent, in the order [get_subdatasets] gives them. *)
Theorem ds_traverse_sums_subdatasets fuel rootds parent json recursive s fs s' :
  _ds_traverse E (S fuel) rootds parent json recursive true s = Returns fs s' ->
  exists subs own sub_sizes,
    get_subdatasets rootds = Ok subs
    /\ (exists fsparent s1 s2,
           fs_traverse E (S fuel) (ds_path rootds) (ds_repo rootds) fsparent false
             recursive json s1 = Returns fs s2
           /\ own = Node.size (read (store s2) fs))
    /\ Forall2 (fun sub sz =>
         exists sa l sb,
           _ds_traverse E fuel (Dataset E (opj (ds_path rootds) sub)) (Some rootds)
             json recursive false sa = Returns l sb
           /\ sz = Node.size (read (store sb) l)) subs sub_sizes
    /\ rollup E (own :: sub_sizes) = Ok (Node.size (read (store s') fs)).
Proof.
  rewrite ds_traverse_unfold. intros H.
  apply ds_traverse_body_returns in H
    as (fsparent & s1 & s2 & size_list & s3 & new_size & Hlen & Htr & Hl & Hroll & Hst).
  destruct Hl as (subs & Hsubs & Hloop).
  apply (collect_sizes
           (fun subds root => _ds_traverse E fuel subds (Some root) json recursive
                                false)) in Hloop as [Hlen3 (sizes & -> & Hall)].
  - exists subs, (Node.size (read (store s2) fs)), sizes.
    split; [exact Hsubs|]. split; [eauto|]. split; [exact Hall|].
    apply fs_traverse_fresh in Htr as [Hfs _].
    rewrite Hst, read_update_eq by lia. exact Hroll.
  - intros ds root sa l sb Hc. apply ds_traverse_flat_length in Hc. lia.
Qed.

End DatasetWalkerFacts.

(** ** The lines of the dataset listing *)

Lemma string_append_assoc (a b c : string) :
  ((a ++ b) ++ c)%string = (a ++ b ++ c)%string.
Proof. induction a as [|x a IH]; simpl; [reflexivity|rewrite IH; reflexivity]. Qed.

Section QuickListingFacts.

Variable E : env.
Variable F : LsFormatter.t.

Lemma format_app xs ys ds msg :
  format E F (xs ++ ys) ds msg
  = rbind (format E F xs ds msg) (fun a =>
    rbind (format E F ys ds msg) (fun b => Ok (a ++ b)%string)).
Proof.
  induction xs as [|x xs IH]; cbn [app format rbind].
  - destruct (format E F ys ds msg); reflexivity.
  - destruct x as [text|f conv width].
    + rewrite IH. destruct (format E F xs ds msg) as [a|]; cbn [rbind]; auto.
      destruct (format E F ys ds msg) as [b|]; cbn [rbind]; auto.
      rewrite string_append_assoc. reflexivity.
    + destruct (get_field ds msg f) as [v|]; cbn [rbind]; auto.
      destruct (convert_field E F v conv) as [v'|]; cbn [rbind]; auto.
      destruct (format_field E v' width) as [t|]; cbn [rbind]; auto.
      rewrite IH. destruct (format E F xs ds msg) as [a|]; cbn [rbind]; auto.
      destruct (format E F ys ds msg) as [b|]; cbn [rbind]; auto.
      rewrite string_append_assoc. reflexivity.
Qed.

Lemma quick_fmt_result dsms ds msg :
  match date_failure E ds with
  | Some exc => format E F (quick_fmt E dsms) ds msg = Raise exc
  | None => exists text, format E F (quick_fmt E dsms) ds msg = Ok text
  end.
Proof.
  unfold date_failure, quick_fmt, path_fmt.
  cbn [app format get_field rbind convert_field format_field colored].
  destruct (GitModel.branch (model_repo ds));
    cbn [of_option convert_field rbind format_field colored];
    destruct (GitModel.describe (model_repo ds));
    cbn [of_option convert_field rbind format_field colored];
    (destruct (GitModel.date (model_repo ds)) as [d|];
     cbn [of_option convert_field rbind format_field colored];
     [destruct (localtime E d) as [t|exc]; cbn [rbind format_field]|]);
    first [reflexivity | eexists; reflexivity].
Qed.

Lemma quick_fmt_same dsms a b msg :
  same_quick_facts a b ->
  format E F (quick_fmt E dsms) a msg = format E F (quick_fmt E dsms) b msg.
Proof.
  intros (Hp & Ht & Hb & Hd & Hdt & _).
  unfold quick_fmt, path_fmt. cbn [app format get_field rbind].
  rewrite Hp, Ht, Hb, Hd, Hdt. reflexivity.
Qed.

Lemma full_fmt_quick dsms fast all :
  full_fmt E dsms fast all
  = quick_fmt E dsms
    ++ (if negb fast || all then [Lit "  "; Repl ds_clean (Some conv_X) None] else [])
    ++ (if all
        then [Lit "  "; Repl ds_annex_local_size (Some conv_S) None;
              Lit "/"; Repl ds_annex_worktree_size (Some conv_S) None]
        else []).
Proof. unfold full_fmt, quick_fmt. rewrite <- !app_assoc. reflexivity. Qed.

Lemma quick_listing_fmt dsms :
  full_fmt E dsms true false = quick_fmt E dsms.
Proof. rewrite full_fmt_quick. cbn [negb orb app]. apply app_nil_r. Qed.

(** X17: the line of the quick listing ([fast] without [all]) depends only
    on the path, the kind of repository, the branch, the description and
    the date of the last commit: two models that agree on these give the
    same result.  Formatting an entry fails exactly when [time.localtime]
    rejects the date of the last commit, with the exception it raises; the
    cleanliness and the sizes of the repository are never asked for. *)
Theorem quick_listing_depends_on_quick_facts dsms a b :
  same_quick_facts a b ->
  format E F (full_fmt E dsms true false) a None
  = format E F (full_fmt E dsms true false) b None
  /\ (forall exc,
         format E F (full_fmt E dsms true false) a None = Raise exc
         <-> date_failure E a = Some exc)
  /\ (date_failure E a = None ->
      exists text, format E F (full_fmt E dsms true false) a None = Ok text)
  /\ (path_exists E (model_path a) = true -> model_repo a <> None ->
      format_ds_model E F a (full_fmt E dsms true false) (format_exc E dsms)
      = format_ds_model E F b (full_fmt E dsms true false) (format_exc E dsms)).
Proof.
  intros Hsame. rewrite quick_listing_fmt.
  pose proof (quick_fmt_same dsms a b None Hsame) as Hab.
  pose proof (quick_fmt_result dsms a None) as Hres.
  split; [exact Hab|]. split; [|split].
  - intros exc. destruct (date_failure E a) as [e|].
    + rewrite Hres. split; intros H; inversion H; reflexivity.
    + destruct Hres as (text & ->). split; discriminate.
  - intros Hnone. rewrite Hnone in Hres. exact Hres.
  - intros Hex Hrepo. destruct Hsame as (Hp & _ & _ & _ & _ & Hnone).
    unfold format_ds_model. rewrite <- Hp, Hex. cbn [negb orb].
    destruct (model_repo a) as [ra|] eqn:Hra; [|congruence].
    destruct (model_repo b) as [rb|] eqn:Hrb.
    + rewrite <- Hab.
      destruct (format E F (quick_fmt E dsms) a None) as [text|exc]; [reflexivity|].
      unfold format_exc, path_fmt. cbn [app format get_field rbind]. rewrite Hp.
      reflexivity.
    + exfalso. destruct Hnone as [_ Hn]. specialize (Hn eq_refl). discriminate.
Qed.

(** X18: in the default listing two things can fail while an entry is
    formatted, in this order: the conversion of the date of the last commit
    ([time.localtime]) and the cleanliness check ([repo.dirty]).
    Formatting raises exactly what the first of them to fail raises, and
    the line printed is then the error marker with the message of that
    exception. *)
Theorem default_listing_failures dsms ds r :
  model_repo ds = Some r ->
  (forall exc,
      format E F (full_fmt E dsms false false) ds None = Raise exc
      <-> (date_failure E ds = Some exc
           \/ (date_failure E ds = None /\ dirty r = Raise exc)))
  /\ (forall exc,
         date_failure E ds = Some exc
         \/ (date_failure E ds = None /\ dirty r = Raise exc) ->
         path_exists E (model_path ds) = true ->
         format_ds_model E F ds (full_fmt E dsms false false) (format_exc E dsms)
         = Ok (error_marker E F dsms ds (exc_str E exc))).
Proof.
  intros Hr.
  assert (Hiff : forall exc,
             format E F (full_fmt E dsms false false) ds None = Raise exc
             <-> (date_failure E ds = Some exc
                  \/ (date_failure E ds = None /\ dirty r = Raise exc))).
  { intros exc. rewrite full_fmt_quick. cbn [negb orb]. rewrite app_nil_r.
    rewrite format_app.
    pose proof (quick_fmt_result dsms ds None) as Hres.
    destruct (date_failure E ds) as [e|].
    - rewrite Hres. cbn [rbind]. split.
      + intros H. left. inversion H. reflexivity.
      + intros [H|[H _]]; [inversion H; reflexivity|discriminate].
    - destruct Hres as (text & ->). cbn [rbind].
      cbn [format get_field rbind]. rewrite Hr. unfold AnnexModel.clean.
      destruct (dirty r) as [d|e]; cbn [rbind convert_field format_field].
      + split; [discriminate|]. intros [H|[_ H]]; discriminate.
      + split.
        * intros H. right. split; [reflexivity|]. inversion H. reflexivity.
        * intros [H|[_ H]]; [discriminate|]. inversion H. reflexivity. }
  split; [exact Hiff|].
  intros exc Hd Hex. unfold format_ds_model. rewrite Hex, Hr. cbn [negb orb].
  apply Hiff in Hd. rewrite Hd. apply format_exc_ok.
Qed.

End QuickListingFacts.

(** ** Locations: dataset paths and S3 URLs *)

Section LocationFacts.

Local Open Scope nat_scope.

Lemma drop_app a b : drop (String.length a) (a ++ b)%string = b.
Proof. induction a as [|x a IH]; simpl; auto. Qed.

Lemma drop_slash_app a b :
  drop (String.length a + 1) (a ++ String slash b)%string = b.
Proof. induction a as [|x a IH]; simpl; auto. Qed.

Lemma drop_short n s : String.length s <= n -> drop n s = "".
Proof.
  revert s. induction n as [|n IH]; intros [|x s] Hlen; simpl in *; auto; try lia.
  apply IH. lia.
Qed.

Lemma truthy_spec s : truthy s = true <-> s <> "".
Proof.
  unfold truthy. destruct s; simpl; split; intros H; congruence.
Qed.

Lemma adjusted_path_truthy top path : truthy (adjusted_path top path) = true.
Proof.
  unfold adjusted_path.
  destruct (truthy (drop _ path)) eqn:Ht; [exact Ht|reflexivity].
Qed.

(** X19: the path shown for a dataset.  It is never empty; under a
    non-empty [topdir] a path [topdir/rel] becomes [rel], and [topdir]
    itself becomes [.]; for an absolute location the path is kept; and only
    the length of [topdir] matters, the slice does not check the prefix. *)
Theorem adjusted_path_is_relative_to_topdir (E : env) top rel path :
  adjusted_path top path <> ""
  /\ (top <> "" ->
      adjusted_path top (top ++ String slash rel)%string
      = (if truthy rel then rel else "."))
  /\ (top <> "" -> adjusted_path top top = ".")
  /\ (forall loc, isabs loc = true ->
        adjusted_path (topdir E loc) path = (if truthy path then path else "."))
  /\ (forall top', String.length top' = String.length top ->
        adjusted_path top' path = adjusted_path top path).
Proof.
  split; [|split; [|split; [|split]]].
  - apply truthy_spec, adjusted_path_truthy.
  - intros Htop. apply truthy_spec in Htop. unfold adjusted_path. rewrite Htop.
    rewrite drop_slash_app. reflexivity.
  - intros Htop. apply truthy_spec in Htop. unfold adjusted_path. rewrite Htop.
    rewrite drop_short by lia. reflexivity.
  - intros loc Habs. unfold topdir. rewrite Habs. reflexivity.
  - intros top' Hlen. unfold adjusted_path. rewrite Hlen.
    replace (truthy top') with (truthy top); [reflexivity|].
    destruct top, top'; simpl in *; try reflexivity; lia.
Qed.

Lemma adjust_paths_cases top dss :
  (In None dss /\ adjust_paths top dss = Raise AttributeError)
  \/ (~ In None dss
      /\ exists dsms,
          adjust_paths top dss = Ok dsms
          /\ Forall2 (fun ds m => model_repo m = ds
                                  /\ exists r, ds = Some r
                                     /\ model_path m = adjusted_path top (repo_path r))
               dss dsms).
Proof.
  induction dss as [|[r|] dss IH]; cbn [adjust_paths].
  - right. split; [intros []|]. exists []. split; [reflexivity|constructor].
  - destruct IH as [[Hin ->]|[Hn (dsms & -> & Hall)]]; cbn [rbind].
    + left. split; [right; exact Hin|reflexivity].
    + right. split.
      * intros [H|H]; [discriminate|auto].
      * eexists. split; [reflexivity|]. constructor; [|exact Hall].
        cbn. split; [reflexivity|]. exists r. auto.
  - left. split; [left; reflexivity|reflexivity].
Qed.

(** X20: adjusting the paths raises exactly when one of the datasets has
    no repository, and then an [AttributeError]; otherwise there is one
    model per dataset, in order, with the repository and the adjusted
    path of the repository. *)
Theorem adjust_paths_needs_repositories top dss :
  (In None dss <-> adjust_paths top dss = Raise AttributeError)
  /\ (forall exc, adjust_paths top dss = Raise exc -> exc = AttributeError)
  /\ (forall dsms, adjust_paths top dss = Ok dsms ->
        Forall2 (fun ds m => model_repo m = ds
                             /\ exists r, ds = Some r
                                /\ model_path m = adjusted_path top (repo_path r))
          dss dsms).
Proof.
  destruct (adjust_paths_cases top dss) as [[Hin Hr]|[Hn (dsms & Hr & Hall)]];
    rewrite Hr.
  - split; [split; auto|]. split; [intros exc H; congruence|discriminate].
  - split; [split; [contradiction|discriminate]|]. split; [discriminate|].
    intros dsms' H. inversion H; subst. exact Hall.
Qed.

Lemma split_once_found b p :
  contains_char slash b = false ->
  split_once slash (b ++ String slash p)%string = [b; p].
Proof.
  induction b as [|x b IH]; simpl; intros H.
  - reflexivity.
  - apply orb_false_iff in H as [Hx Hb]. rewrite Hx, IH by exact Hb. reflexivity.
Qed.

Lemma split_once_missing s :
  contains_char slash s = false -> split_once slash s = [s].
Proof.
  induction s as [|x s IH]; simpl; intros H.
  - reflexivity.
  - apply orb_false_iff in H as [Hx Hs]. rewrite Hx, IH by exact Hs. reflexivity.
Qed.

Lemma before_found p o :
  contains_char question_mark p = false ->
  before question_mark (p ++ String question_mark o)%string = p.
Proof.
  induction p as [|x p IH]; simpl; intros H.
  - reflexivity.
  - apply orb_false_iff in H as [Hx Hp]. rewrite Hx, IH by exact Hp. reflexivity.
Qed.

Lemma contains_char_app c a b :
  contains_char c (a ++ b)%string = contains_char c a || contains_char c b.
Proof.
  induction a as [|x a IH]; simpl; [reflexivity|]. rewrite IH, orb_assoc. reflexivity.
Qed.

Lemma before_has_none c s : contains_char c (before c s) = false.
Proof.
  induction s as [|x s IH]; simpl; [reflexivity|].
  destruct (Ascii.eqb x c) eqn:Hx; simpl; [reflexivity|]. rewrite Hx. exact IH.
Qed.

Lemma s3_scheme_prefix x : String.prefix "s3://" ("s3://" ++ x) = true.
Proof. destruct x; reflexivity. Qed.

Lemma s3_scheme_drop x : drop 5 ("s3://" ++ x) = x.
Proof. reflexivity. Qed.

(** X21: an S3 location [s3://bucket/prefix] is split into the bucket and
    the prefix; URL options after a question mark are dropped from the
    prefix with a message; a location without a slash after the bucket is a
    [ValueError]. *)
Theorem ls_s3_location_parts bucket prefix options :
  contains_char slash bucket = false ->
  contains_char question_mark prefix = false ->
  _ls_s3_location ("s3://" ++ bucket ++ String slash prefix)
  = Ok (bucket, prefix, [("Connecting to bucket: " ++ bucket)%string])
  /\ _ls_s3_location
       ("s3://" ++ bucket ++ String slash (prefix ++ String question_mark options))
     = Ok (bucket, prefix,
           ["We do not care about URL options ATM, they get stripped";
            ("Connecting to bucket: " ++ bucket)%string])
  /\ _ls_s3_location ("s3://" ++ bucket) = Raise ValueError.
Proof.
  intros Hb Hp. unfold _ls_s3_location.
  rewrite !s3_scheme_prefix, !s3_scheme_drop.
  split; [|split].
  - rewrite split_once_found by exact Hb. rewrite Hp. reflexivity.
  - rewrite split_once_found by exact Hb.
    rewrite contains_char_app. cbn [contains_char].
    rewrite Ascii.eqb_refl, orb_true_l, orb_true_r.
    rewrite before_found by exact Hp. reflexivity.
  - rewrite split_once_missing by exact Hb. reflexivity.
Qed.

Lemma prefix_drop p s :
  String.prefix p s = true -> s = (p ++ drop (String.length p) s)%string.
Proof.
  revert s. induction p as [|x p IH]; intros s H; [reflexivity|].
  destruct s as [|y s]; simpl in H; [discriminate|].
  destruct (ascii_dec x y) as [->|]; [|discriminate].
  simpl. f_equal. apply IH. exact H.
Qed.

Lemma split_once_cases c s :
  (contains_char c s = false /\ split_once c s = [s])
  \/ (exists a b, s = (a ++ String c b)%string
                  /\ contains_char c a = false
                  /\ split_once c s = [a; b]).
Proof.
  induction s as [|x s IH]; simpl.
  - left. auto.
  - destruct (Ascii.eqb x c) eqn:Hx.
    + right. apply Ascii.eqb_eq in Hx as ->. exists "", s. auto.
    + destruct IH as [[Hs ->]|(a & b & -> & Ha & ->)].
      * left. auto.
      * right. exists (String x a), b. simpl. rewrite Hx. auto.
Qed.

Lemma before_absent c s : contains_char c s = false -> before c s = s.
Proof.
  induction s as [|x s IH]; simpl; intros H; [reflexivity|].
  apply orb_false_iff in H as [Hx Hs]. rewrite Hx, IH by exact Hs. reflexivity.
Qed.

(** X22: whatever the location, [_ls_s3] either raises [ValueError] (no
    [s3://] scheme, or no slash after it) or continues with a bucket name
    free of slashes, the part of the rest before the first question mark as
    prefix, and the connection message last. *)
Theorem ls_s3_location_results loc :
  match _ls_s3_location loc with
  | Ok (bucket, prefix, messages) =>
      exists rest,
        loc = ("s3://" ++ bucket ++ String slash rest)%string
        /\ contains_char slash bucket = false
        /\ prefix = before question_mark rest
        /\ contains_char question_mark prefix = false
        /\ last messages "" = ("Connecting to bucket: " ++ bucket)%string
  | Raise exc =>
      exc = ValueError
      /\ (String.prefix "s3://" loc = false
          \/ contains_char slash (drop 5 loc) = false)
  end.
Proof.
  unfold _ls_s3_location.
  destruct (String.prefix "s3://" loc) eqn:Hpre; [|auto].
  apply prefix_drop in Hpre. change (String.length "s3://") with 5 in Hpre.
  destruct (split_once_cases slash (drop 5 loc))
    as [[Hs ->]|(bucket & rest & Hrest & Hb & ->)].
  - auto.
  - exists rest. rewrite Hrest in Hpre. split; [exact Hpre|]. split; [exact Hb|].
    destruct (contains_char question_mark rest) eqn:Hq.
    + split; [reflexivity|]. split; [apply before_has_none|reflexivity].
    + split; [symmetry; apply before_absent; exact Hq|]. split; [exact Hq|reflexivity].
Qed.

End LocationFacts.

Local Open Scope nat_scope.

Lemma scenario_run_returns : scenario_run = Returns 0 scenario_final.
Proof. vm_compute. reflexivity. Qed.

(** The roll-up on the scenario of the spec: 100 + 924 bytes give ["1.0 kB"]. *)
Lemma fs_traverse_size_is_sum_of_children_witness :
  isdir (table_env scenario_fs) "/d" = true
  /\ scenario_run = Returns 0 scenario_final
  /\ Node.size (read (store scenario_final) 0)
     = [("total", "1.0 kB"); ("ondisk", "1.0 kB"); ("git", "0.0 Bytes");
        ("annex", "0.0 Bytes"); ("annex_worktree", "0.0 Bytes")]
  /\ exists names cs,
      listdir (table_env scenario_fs) "/d" = Ok names
      /\ Node.nodes (read (store scenario_final) 0) = Some (1 :: opt_list None ++ cs)
      /\ Forall (child_of (table_env scenario_fs) "/d" (git_repo "/repo") false names
                   (store scenario_final)) cs
      /\ Forall (readable (table_env scenario_fs)) (sizes_of (store scenario_final) cs)
      /\ forall t,
          match dict_get t (Node.size (read (store scenario_final) 0)) with
          | Some rendered =>
              exists q,
                (q == category_total (table_env scenario_fs) t
                        (sizes_of (store scenario_final) cs))%Q
                /\ naturalsize (table_env scenario_fs) (PyNum q) = Ok rendered
          | None =>
              Forall (fun d => dict_get t d = None) (sizes_of (store scenario_final) cs)
          end.
Proof.
  split; [reflexivity|]. split; [exact scenario_run_returns|].
  split; [reflexivity|].
  apply (fs_traverse_size_is_sum_of_children (table_env scenario_fs) 0 "/d"
           (git_repo "/repo") None true false None empty_state 0 scenario_final).
  - reflexivity.
  - intros p Hp. discriminate Hp.
  - exact scenario_run_returns.
Defined.

Lemma empty_dir_run_returns : empty_dir_run = Returns 0 empty_dir_final.
Proof. vm_compute. reflexivity. Qed.

(** The empty directory [/e]: [FsModel.size] starts from the five categories,
    the traversal reports none. *)
Lemma fs_traverse_empty_directory_witness :
  isdir (table_env empty_dir_fs) "/e" = true
  /\ listdir (table_env empty_dir_fs) "/e" = Ok []
  /\ empty_dir_run = Returns 0 empty_dir_final
  /\ dict_keys FsModel.initial_sizes
     = ["total"; "ondisk"; "git"; "annex"; "annex_worktree"]
  /\ Node.size (read (store empty_dir_final) 0) = []
  /\ Node.nodes (read (store empty_dir_final) 0) = Some (1 :: opt_list None)
  /\ Node.name (read (store empty_dir_final) 1) = ".".
Proof.
  split; [reflexivity|]. split; [reflexivity|].
  split; [exact empty_dir_run_returns|]. split; [reflexivity|].
  apply (fs_traverse_empty_directory (table_env empty_dir_fs) 0 "/e"
           (git_repo "/repo") None true true None empty_state 0 empty_dir_final).
  - reflexivity.
  - reflexivity.
  - intros p Hp. discriminate Hp.
  - exact empty_dir_run_returns.
Defined.

Lemma nested_repo_run_returns : nested_repo_run = Returns 0 nested_repo_final.
Proof. vm_compute. reflexivity. Qed.

(** C5 fails as stated: the nested repository [/d/sub], for which
    [ignored(path)] holds, is among the children of [/d]. *)
Lemma ignored_directory_among_children :
  nested_repo_run = Returns 0 nested_repo_final
  /\ Node.nodes (read (store nested_repo_final) 0) = Some [1; 2; 4]
  /\ Node.path (read (store nested_repo_final) 4) = "/d/sub"
  /\ Node.type (read (store nested_repo_final) 4) = Some git
  /\ ignored (table_env nested_repo_fs) "/d/sub" false = Ok true.
Proof.
  split; [exact nested_repo_run_returns|]. repeat split.
Qed.

(** The children of [/d] in the nested repository: [.git] is filtered. *)
Lemma fs_traverse_children_not_hidden_witness :
  isdir (table_env nested_repo_fs) "/d" = true
  /\ nested_repo_run = Returns 0 nested_repo_final
  /\ exists names cs,
      listdir (table_env nested_repo_fs) "/d" = Ok names
      /\ Node.nodes (read (store nested_repo_final) 0) = Some (1 :: opt_list None ++ cs)
      /\ Forall (fun c =>
           exists n first rest,
             In n names
             /\ Node.path (read (store nested_repo_final) c) = opj "/d" n
             /\ ignored (table_env nested_repo_fs) (opj "/d" n) true = Ok false
             /\ leaf_name (table_env nested_repo_fs) (opj "/d" n) = String first rest
             /\ first <> dot
             /\ leaf_name (table_env nested_repo_fs) (opj "/d" n) <> "index.html") cs.
Proof.
  split; [reflexivity|]. split; [exact nested_repo_run_returns|].
  apply (fs_traverse_children_not_hidden (table_env nested_repo_fs) 1 "/d"
           (git_repo "/d") None true true None empty_state 0 nested_repo_final).
  - reflexivity.
  - intros p Hp. discriminate Hp.
  - exact nested_repo_run_returns.
Defined.










(** Two datasets, the first of which fails its cleanliness check. *)
Lemma ls_dataset_error_marker_witness :
  two_models <> []
  /\ _ls_dataset (table_env two_datasets_fs) plain_formatter two_models false true
     = Ok ["ds1  index is locked";
           "ds2  [git]  master  - 1970-01-01 00:00:00  OK  0.0 Bytes/0.0 Bytes"]
  /\ exists lines,
      _ls_dataset (table_env two_datasets_fs) plain_formatter two_models false true
      = Ok lines
      /\ Forall2 (fun ds line =>
           (path_exists (table_env two_datasets_fs) (model_path ds) = true ->
            model_repo ds <> None ->
            match format (table_env two_datasets_fs) plain_formatter
                    (full_fmt (table_env two_datasets_fs) two_models false true) ds None
            with
            | Ok text => line = text
            | Raise exc =>
                line = error_marker (table_env two_datasets_fs) plain_formatter
                         two_models ds (exc_str (table_env two_datasets_fs) exc)
            end)
           /\ (path_exists (table_env two_datasets_fs) (model_path ds) = false
               \/ model_repo ds = None ->
               line = error_marker (table_env two_datasets_fs) plain_formatter
                        two_models ds "not installed")) two_models lines.
Proof.
  split; [discriminate|]. split; [reflexivity|].
  apply (ls_dataset_error_marker (table_env two_datasets_fs) plain_formatter
           two_models false true).
  discriminate.
Defined.

Lemma parent_run_returns : parent_run = Returns 1 parent_final.
Proof. vm_compute. reflexivity. Qed.

(** C10 fails as stated: the caller's record at location 0, named ["top"],
    is the second child of the returned record and is now named [".."]. *)
Lemma parent_record_is_shared_and_renamed :
  parent_run = Returns 1 parent_final
  /\ read (store caller_state) 0 = top_record
  /\ Node.name (read (store caller_state) 0) = "top"
  /\ Node.name (read (store parent_final) 0) = ".."
  /\ read (store parent_final) 0 <> read (store caller_state) 0
  /\ Node.nodes (read (store parent_final) 1) = Some [2; 0; 3; 4].
Proof.
  split; [exact parent_run_returns|]. repeat split. discriminate.
Qed.

(** The scenario of the spec, traversed with the caller's record as parent. *)
Lemma fs_traverse_parent_entry_witness :
  isdir (table_env scenario_fs) "/d" = true
  /\ 0 < List.length (store caller_state)
  /\ parent_run = Returns 1 parent_final
  /\ exists cs,
      Node.nodes (read (store parent_final) 1) = Some (2 :: 0 :: cs)
      /\ Node.name (read (store parent_final) 2) = "."
      /\ read (store parent_final) 0 = Node.set_name ".." (read (store caller_state) 0)
      /\ (forall x, x < List.length (store caller_state) -> x <> 0 ->
                    read (store parent_final) x = read (store caller_state) x)
      /\ NoDup (1 :: 2 :: 0 :: cs)
      /\ Forall (fun c => List.length (store caller_state) <= c
                          < List.length (store parent_final)) (1 :: 2 :: cs).
Proof.
  split; [reflexivity|]. split; [simpl; lia|]. split; [exact parent_run_returns|].
  apply (fs_traverse_parent_entry (table_env scenario_fs) 0 "/d" (git_repo "/repo")
           0 true false None caller_state 1 parent_final).
  - reflexivity.
  - simpl. lia.
  - exact parent_run_returns.
Defined.

Lemma quiet_run_returns : quiet_run = Returns 0 quiet_final.
Proof. vm_compute. reflexivity. Qed.

Lemma all_datasets_run_returns : all_datasets_run = Returns 0 all_datasets_final.
Proof. vm_compute. reflexivity. Qed.

Lemma fs_extract_has_five_categories_witness :
  fs_extract_dict (table_env scenario_fs) "/d/a" (git_repo "/repo") = Ok file_a_record
  /\ dict_keys (Node.size file_a_record) = five_categories
  /\ exists sizes,
      FsModel.size (table_env scenario_fs) "/d/a" (git_repo "/repo") = Ok sizes
      /\ dict_keys sizes = five_categories
      /\ forall t v, dict_get t sizes = Some v ->
           exists rendered,
             naturalsize (table_env scenario_fs) v = Ok rendered
             /\ dict_get t (Node.size file_a_record) = Some rendered.
Proof.
  split; [vm_compute; reflexivity|].
  apply (fs_extract_has_five_categories (table_env scenario_fs) "/d/a"
           (git_repo "/repo") file_a_record).
  vm_compute. reflexivity.
Defined.

Lemma size_of_annexed_file_witness :
  FsModel.type_ (table_env broken_link_fs) "/d/l" = Ok (Some link_broken)
  /\ is_under_annex (annex_repo "/d") "/d/l" = Ok true
  /\ FsModel.size (table_env broken_link_fs) "/d/l" (annex_repo "/d")
     = Ok [("total", PyNum (inject_Z 100)); ("ondisk", zero); ("git", zero);
           ("annex", zero); ("annex_worktree", zero)].
Proof.
  split; [reflexivity|]. split; [reflexivity|].
  apply (size_of_annexed_file (table_env broken_link_fs) "/d/l" (annex_repo "/d")
           (Some link_broken) (PyNum (inject_Z 100)) false).
  - reflexivity.
  - reflexivity.
  - reflexivity.
  - reflexivity.
  - reflexivity.
  - reflexivity.
  - discriminate.
Defined.

Lemma size_of_valid_link_witness :
  islink (table_env valid_link_fs) "/d/l" = true
  /\ readlink (table_env valid_link_fs) "/d/l" = Ok "t"
  /\ lstat (table_env valid_link_fs) "/d/t" = Ok {| st_size := 300; st_mtime := 0 |}
  /\ FsModel.type_ (table_env valid_link_fs) "/d/l" = Ok (Some link)
  /\ FsModel.size (table_env valid_link_fs) "/d/l" (git_repo "/repo")
     = Ok [("total", PyNum (inject_Z 300)); ("ondisk", PyNum (inject_Z 300));
           ("git", zero); ("annex", zero); ("annex_worktree", zero)].
Proof.
  split; [reflexivity|]. split; [reflexivity|]. split; [reflexivity|].
  apply (size_of_valid_link (table_env valid_link_fs) "/d/l" (git_repo "/repo") "t"
           {| st_size := 300; st_mtime := 0 |}).
  - reflexivity.
  - reflexivity.
  - reflexivity.
  - discriminate.
  - left. reflexivity.
  - reflexivity.
  - discriminate.
Defined.

Lemma fs_extract_of_root_with_unknown_size_witness :
  count_objects (failing_repo "/e") = Ok None
  /\ repo_info (failing_repo "/e") = Ok None
  /\ FsModel.size (table_env empty_dir_fs) "/e" (failing_repo "/e")
     = Ok [("total", zero); ("ondisk", zero); ("git", PyNone); ("annex", PyNone);
           ("annex_worktree", PyNone)]
  /\ fs_extract_dict (table_env empty_dir_fs) "/e" (failing_repo "/e")
     = Raise TypeError.
Proof.
  split; [reflexivity|]. split; [reflexivity|].
  apply (fs_extract_of_root_with_unknown_size (table_env empty_dir_fs) "/e"
           (failing_repo "/e") (Some dir) "0.0 Bytes" TypeError).
  - reflexivity.
  - reflexivity.
  - reflexivity.
  - reflexivity.
  - reflexivity.
  - reflexivity.
  - reflexivity.
Defined.

Lemma machinesize_unit_step_witness :
  parse_decimal "1.5" = Some one_and_a_half
  /\ exists m m',
      machinesize parse_decimal (PyStr ("1.5" ++ String space "kB")) = Ok m
      /\ machinesize parse_decimal (PyStr ("1.5" ++ String space "MB")) = Ok m'
      /\ (m' == 1024 * m)%Q
      /\ ("kB" = "Bytes" -> m = (one_and_a_half * 1)%Q).
Proof.
  split; [reflexivity|].
  apply (machinesize_unit_step parse_decimal "1.5" "kB" "MB" one_and_a_half 1%Z).
  - reflexivity.
  - reflexivity.
  - reflexivity.
  - reflexivity.
Defined.

Lemma fs_traverse_quiet_witness :
  quiet_run = Returns 0 quiet_final /\ trace quiet_final = trace empty_state.
Proof.
  split; [exact quiet_run_returns|].
  apply (fs_traverse_quiet (table_env scenario_fs) 0 "/d" (git_repo "/repo") None
           (Some json_file) empty_state 0 quiet_final).
  exact quiet_run_returns.
Defined.

Lemma fs_traverse_of_a_non_directory_witness :
  isdir (table_env scenario_fs) "/d/a" = false
  /\ fs_traverse (table_env scenario_fs) 0 "/d/a" (git_repo "/repo") (Some 0) true true
       (Some json_file) caller_state
     = Returns (List.length (store caller_state))
         {| store := store caller_state ++ [file_a_record];
            trace := trace caller_state |}.
Proof.
  split; [reflexivity|].
  apply (fs_traverse_of_a_non_directory (table_env scenario_fs) 0 "/d/a"
           (git_repo "/repo") (Some 0) true true (Some json_file) caller_state
           file_a_record).
  - reflexivity.
  - vm_compute. reflexivity.
Defined.

Lemma fs_traverse_not_recursive_has_five_categories_witness :
  scenario_run = Returns 0 scenario_final
  /\ exists cs,
      Node.nodes (read (store scenario_final) 0) = Some (1 :: opt_list None ++ cs)
      /\ (cs <> [] ->
          dict_keys (Node.size (read (store scenario_final) 0)) = five_categories
          /\ dict_keys (Node.size (read (store scenario_final) 1)) = five_categories).
Proof.
  split; [exact scenario_run_returns|].
  apply (fs_traverse_not_recursive_has_five_categories (table_env scenario_fs) 0 "/d"
           (git_repo "/repo") None true None empty_state 0 scenario_final).
  - reflexivity.
  - intros p Hp. discriminate Hp.
  - exact scenario_run_returns.
Defined.

Lemma ds_traverse_sums_subdatasets_witness :
  all_datasets_run = Returns 0 all_datasets_final
  /\ Node.size (read (store all_datasets_final) 0)
     = [("total", "2.1 kB"); ("ondisk", "2.1 kB"); ("git", "0.0 Bytes");
        ("annex", "0.0 Bytes"); ("annex_worktree", "0.0 Bytes")]
  /\ exists subs own sub_sizes,
      get_subdatasets nested_dataset = Ok subs
      /\ (exists fsparent s1 s2,
             fs_traverse (table_env nested_repo_fs) 2 (ds_path nested_dataset)
               (ds_repo nested_dataset) fsparent false true None s1 = Returns 0 s2
             /\ own = Node.size (read (store s2) 0))
      /\ Forall2 (fun sub sz =>
           exists sa l sb,
             _ds_traverse (table_env nested_repo_fs) 1
               (Dataset (table_env nested_repo_fs) (opj (ds_path nested_dataset) sub))
               (Some nested_dataset) None true false sa = Returns l sb
             /\ sz = Node.size (read (store sb) l)) subs sub_sizes
      /\ rollup (table_env nested_repo_fs) (own :: sub_sizes)
         = Ok (Node.size (read (store all_datasets_final) 0)).
Proof.
  split; [exact all_datasets_run_returns|]. split; [reflexivity|].
  apply (ds_traverse_sums_subdatasets (table_env nested_repo_fs) 1 nested_dataset None
           None true empty_state 0 all_datasets_final).
  exact all_datasets_run_returns.
Defined.

Lemma quick_listing_depends_on_quick_facts_witness :
  same_quick_facts failing_model annex_model
  /\ dirty (failing_repo "/top/ds1") <> dirty (annex_repo "/elsewhere")
  /\ format (table_env two_datasets_fs) plain_formatter
       (full_fmt (table_env two_datasets_fs) two_models true false) failing_model None
     = format (table_env two_datasets_fs) plain_formatter
         (full_fmt (table_env two_datasets_fs) two_models true false) annex_model None
  /\ (forall exc,
         format (table_env two_datasets_fs) plain_formatter
           (full_fmt (table_env two_datasets_fs) two_models true false)
           failing_model None = Raise exc
         <-> date_failure (table_env two_datasets_fs) failing_model = Some exc)
  /\ (date_failure (table_env two_datasets_fs) failing_model = None ->
      exists text,
        format (table_env two_datasets_fs) plain_formatter
          (full_fmt (table_env two_datasets_fs) two_models true false)
          failing_model None = Ok text)
  /\ (path_exists (table_env two_datasets_fs) (model_path failing_model) = true ->
      model_repo failing_model <> None ->
      format_ds_model (table_env two_datasets_fs) plain_formatter failing_model
        (full_fmt (table_env two_datasets_fs) two_models true false)
        (format_exc (table_env two_datasets_fs) two_models)
      = format_ds_model (table_env two_datasets_fs) plain_formatter annex_model
          (full_fmt (table_env two_datasets_fs) two_models true false)
          (format_exc (table_env two_datasets_fs) two_models)).
Proof.
  assert (Hsame : same_quick_facts failing_model annex_model).
  { unfold same_quick_facts. split; [reflexivity|]. split; [reflexivity|].
    split; [reflexivity|]. split; [reflexivity|]. split; [reflexivity|].
    split; intros H; discriminate H. }
  split; [exact Hsame|]. split; [discriminate|].
  apply (quick_listing_depends_on_quick_facts (table_env two_datasets_fs)
           plain_formatter two_models failing_model annex_model).
  exact Hsame.
Defined.

(** A model whose last commit carries a date beyond the range of
    [time.localtime]: the default listing shows the error marker with the
    message of that exception, and the cleanliness is not reached. *)
Lemma default_listing_failures_witness :
  date_failure (table_env two_datasets_fs) misdated_model = Some OSError
  /\ dirty (misdated_repo "/top/ds1") = Raise (CommandError "index is locked")
  /\ (forall exc,
         format (table_env two_datasets_fs) plain_formatter
           (full_fmt (table_env two_datasets_fs) two_models false false)
           misdated_model None = Raise exc
         <-> (date_failure (table_env two_datasets_fs) misdated_model = Some exc
              \/ (date_failure (table_env two_datasets_fs) misdated_model = None
                  /\ dirty (misdated_repo "/top/ds1") = Raise exc)))
  /\ (forall exc,
         date_failure (table_env two_datasets_fs) misdated_model = Some exc
         \/ (date_failure (table_env two_datasets_fs) misdated_model = None
             /\ dirty (misdated_repo "/top/ds1") = Raise exc) ->
         path_exists (table_env two_datasets_fs) (model_path misdated_model) = true ->
         format_ds_model (table_env two_datasets_fs) plain_formatter misdated_model
           (full_fmt (table_env two_datasets_fs) two_models false false)
           (format_exc (table_env two_datasets_fs) two_models)
         = Ok (error_marker (table_env two_datasets_fs) plain_formatter two_models
                 misdated_model (exc_str (table_env two_datasets_fs) exc))).
Proof.
  split; [reflexivity|]. split; [reflexivity|].
  apply (default_listing_failures (table_env two_datasets_fs) plain_formatter
           two_models misdated_model (misdated_repo "/top/ds1")).
  reflexivity.
Defined.

Lemma ls_s3_location_parts_witness :
  _ls_s3_location ("s3://" ++ "bucket" ++ String slash "dir/key")
  = Ok ("bucket", "dir/key", [("Connecting to bucket: " ++ "bucket")%string])
  /\ _ls_s3_location
       ("s3://" ++ "bucket"
        ++ String slash ("dir/key" ++ String question_mark "versionId=1"))
     = Ok ("bucket", "dir/key",
           ["We do not care about URL options ATM, they get stripped";
            ("Connecting to bucket: " ++ "bucket")%string])
  /\ _ls_s3_location ("s3://" ++ "bucket") = Raise ValueError.
Proof.
  apply (ls_s3_location_parts "bucket" "dir/key" "versionId=1").
  - reflexivity.
  - reflexivity.
Defined.
